(** * pr-opener: the run orchestrator of [index.js] and its notification ledger

    A shallow embedding of [index.js] (the version with retention, draft
    filtering and desktop notifications) and the properties of one run.

    Data model.
    - The ledger ([notified.json]) is a JavaScript object used as a map from
      identity keys ["<owner>/<repo>#<number>"] to entry objects.  It is a
      [gmap string entry]; an entry is an object whose fields hold strings
      ([at], [notifiedAt], [title], and whatever else the file carries), a
      [gmap string string].  A missing field reads as [undefined], here
      [None].  Ledger keys are identity keys, which contain ['#']: property
      names that JavaScript treats specially on plain objects never occur.
    - Numbers of the configuration are integers ([Z]); the system clock and
      the time values of dates are milliseconds since the epoch ([Z]).
    - What the process does to the outside world is a trace of events, and
      what the outside world answers is an environment of oracles.
    - A run is one call of [main].  The subcommands exit before it; they
      are modelled on their own ([handleCommand] for [pause], [resume] and
      [status], [handleStats] for [stats]), and so is the command line that
      [sendNotification] builds.  The dispatch on [process.argv] is not
      modelled. *)

From Stdlib Require Import ZArith Ascii.
From stdpp Require Import base option list strings pretty gmap fin_maps sorting.

Local Open Scope Z_scope.

(** ** JavaScript values *)

Abbreviation entry := (gmap string string) (only parsing).
Abbreviation ledger := (gmap string (gmap string string)) (only parsing).

(** Truthiness of a field that is [undefined] or a string: the empty string
    and [undefined] are falsy. *)
Definition truthy (v : option string) : bool :=
  match v with
  | Some s => negb (String.eqb s "")
  | None => false
  end.

(** Truthiness of a property that is [undefined] or an object. *)
Definition truthy_obj {A} (v : option A) : bool :=
  match v with
  | Some _ => true
  | None => false
  end.

(** [a || b] on such fields. *)
Definition js_or (a b : option string) : option string :=
  if truthy a then a else b.

(** [Array.prototype.slice(start, end)] for integer arguments: a negative
    index counts from the end of the array, and both are clamped to the
    array. *)
Definition slice_index (len i : Z) : Z :=
  if i <? 0 then Z.max (len + i) 0 else Z.min i len.

Definition slice {A} (l : list A) (start end_ : Z) : list A :=
  let len := Z.of_nat (length l) in
  let k := slice_index len start in
  let final := slice_index len end_ in
  take (Z.to_nat (final - k)) (drop (Z.to_nat k) l).

(** The part of [Date] the program uses.  [Date_parse s] is the time value
    of [new Date(s)], [None] when the date is invalid ([getTime()] is [NaN]);
    [toISOString t] is [new Date(t).toISOString()]. *)
Class DateRuntime := {
  Date_parse : string → option Z;
  toISOString : Z → string;
}.

(** ** Records of the program *)

Record Repository := { nameWithOwner : string }.

(** A pull request as [gh search prs --json number,url,repository,title,updatedAt]
    prints it. *)
Record PR := {
  number : N;
  url : string;
  repository : Repository;
  title : string;
  updatedAt : string;
}.

Record config := {
  maxTabsToOpen : Z;
  paused : bool;
  excludeDraft : bool;
  notifiedRetentionDays : Z;
  enableNotification : bool;
}.

(** [config.json] as parsed: any field may be missing. *)
Record config_json := {
  maxTabsToOpen_opt : option Z;
  paused_opt : option bool;
  excludeDraft_opt : option bool;
  notifiedRetentionDays_opt : option Z;
  enableNotification_opt : option bool;
}.

(** State of [notified.json] on disk: missing, not parsable as JSON, or an
    object of entries. *)
Inductive file :=
  | Missing
  | Corrupt
  | Content (data : gmap string (gmap string string)).

(** ** Effects *)

Inductive event :=
  | Log (line : string)
  | LogError (line : string)
  | ExecOpen (url : string) (exited_cleanly : bool)
  | ExecOsascript (title message : string)
  | WriteNotified (data : gmap string (gmap string string)).

(** What the outside world answers during one invocation. *)
Record env := {
  DRY_RUN : bool;
  CONFIG_FILE : option config_json;
  (** outcome of [gh search prs], given whether [--draft=false] is passed:
      the parsed list, or the message of the error thrown *)
  gh_search_prs : bool → string + list PR;
  (** the n-th reading of the system clock *)
  clock : nat → Z;
  (** outcome of the n-th [open -a "Google Chrome"]: [None] when it exits
      cleanly, the message of the error thrown otherwise *)
  chrome : nat → option string;
}.

Record state := {
  NOTIFIED_FILE : file;
  reads : nat;
  spawned : nat;
  trace : list event;
}.

Definition M (A : Type) : Type := env → state → A * state.

Definition ret {A} (x : A) : M A := λ _ s, (x, s).
Definition bind {A B} (m : M A) (f : A → M B) : M B :=
  λ E s, let '(x, s') := m E s in f x E s'.

Declare Scope prog_scope.
Delimit Scope prog_scope with prog.
Notation "x <- m ; k" := (bind m (λ x, k))
  (at level 100, m at next level, right associativity) : prog_scope.
Notation "m ;; k" := (bind m (λ _, k))
  (at level 100, right associativity) : prog_scope.
Local Open Scope prog_scope.

Definition ask {A} (f : env → A) : M A := λ E s, (f E, s).
Definition emit (e : event) : M unit :=
  λ _ s, (tt, {| NOTIFIED_FILE := NOTIFIED_FILE s; reads := reads s;
                 spawned := spawned s; trace := trace s ++ [e] |}).

(** [Date.now()] and [new Date()]: one reading of the clock. *)
Definition Date_now : M Z :=
  λ E s, (clock E (reads s),
          {| NOTIFIED_FILE := NOTIFIED_FILE s; reads := S (reads s);
             spawned := spawned s; trace := trace s |}).

(** [for (const x of l) body]: the loop threads the object it mutates. *)
Fixpoint for_of {A B} (l : list A) (body : A → B → M B) (acc : B) : M B :=
  match l with
  | [] => ret acc
  | x :: l' => acc' <- body x acc; for_of l' body acc'
  end.

(** [execSync(`open -a "Google Chrome" "${url}"`)]: the launch and how it
    ended are recorded; the answer is the message of the error thrown, if
    any. *)
Definition execSync_open (url : string) : M (option string) :=
  λ E s, let out := chrome E (spawned s) in
         (out, {| NOTIFIED_FILE := NOTIFIED_FILE s; reads := reads s;
                  spawned := S (spawned s);
                  trace := trace s ++ [ExecOpen url (bool_decide (out = None))] |}).

Definition log (line : string) : M unit := emit (Log line).
Definition logError (line : string) : M unit := emit (LogError line).

(** ** The program *)

Definition defaults : config :=
  {| maxTabsToOpen := 5; paused := false; excludeDraft := true;
     notifiedRetentionDays := 7; enableNotification := true |}.

(** [{ ...defaults, ...JSON.parse(...) }], and [defaults] when the file
    cannot be read or parsed. *)
Definition with_defaults (parsed : option config_json) : config :=
  match parsed with
  | Some j =>
      {| maxTabsToOpen := default (maxTabsToOpen defaults) (maxTabsToOpen_opt j);
         paused := default (paused defaults) (paused_opt j);
         excludeDraft := default (excludeDraft defaults) (excludeDraft_opt j);
         notifiedRetentionDays :=
           default (notifiedRetentionDays defaults) (notifiedRetentionDays_opt j);
         enableNotification :=
           default (enableNotification defaults) (enableNotification_opt j) |}
  | None => defaults
  end.

Definition loadConfig : M config :=
  parsed <- ask CONFIG_FILE;
  ret (with_defaults parsed).

(** [{}] when the file does not exist or does not parse. *)
Definition read_notified (f : file) : ledger :=
  match f with
  | Missing => ∅
  | Corrupt => ∅
  | Content data => data
  end.

Definition loadNotified : M ledger :=
  λ _ s, (read_notified (NOTIFIED_FILE s), s).

Definition saveNotified (data : ledger) : M unit :=
  λ _ s, (tt, {| NOTIFIED_FILE := Content data; reads := reads s;
                 spawned := spawned s;
                 trace := trace s ++ [WriteNotified data] |}).

Section Program.
Context `{DateRuntime}.

(** [timestamp && new Date(timestamp).getTime() > cutoff], with
    [timestamp = value.at || value.notifiedAt].  A comparison with [NaN] is
    false. *)
Definition is_recent (cutoff : Z) (value : entry) : bool :=
  let timestamp := js_or (value !! "at") (value !! "notifiedAt") in
  truthy timestamp &&
  match timestamp ≫= Date_parse with
  | Some t => cutoff <? t
  | None => false
  end.

Definition cleanupOldNotified (notified : ledger) (retentionDays : Z) : M ledger :=
  now <- Date_now;
  let cutoff := now - retentionDays * 24 * 60 * 60 * 1000 in
  ret (map_fold
         (λ key value cleaned,
            if is_recent cutoff value then <[key := value]> cleaned else cleaned)
         ∅ notified).

Definition fetchPRs (excludeDraft : bool) : M (list PR) :=
  out <- ask (λ E, gh_search_prs E excludeDraft);
  match out with
  | inr prs => ret prs
  | inl message => logError ("GitHub API failed: " +:+ message);; ret []
  end.

(** A failure of [osascript] is swallowed, so only the call is recorded. *)
Definition sendNotification (title message : string) : M unit :=
  emit (ExecOsascript title message).

Definition openTab (url : string) : M bool :=
  dry <- ask DRY_RUN;
  if dry then
    log ("[DRY-RUN] Would open: " +:+ url);; ret true
  else
    out <- execSync_open url;
    match out with
    | None => log ("Opened: " +:+ url);; ret true
    | Some message => logError ("Failed: " +:+ url +:+ " " +:+ message);; ret false
    end.

Definition key (pr : PR) : string :=
  nameWithOwner (repository pr) +:+ "#" +:+ pretty (number pr).

(** [prs.filter((pr) => !notified[key(pr)]).slice(0, config.maxTabsToOpen)] *)
Definition is_new (notified : ledger) (pr : PR) : bool :=
  negb (truthy_obj (notified !! key pr)).

Definition select_new (notified : ledger) (prs : list PR) (maxTabs : Z) : list PR :=
  slice (filter (λ pr, is_new notified pr) prs) 0 maxTabs.

(** The body of the loop over [newPRs]. *)
Definition open_and_record (pr : PR) (notified : ledger) : M ledger :=
  ok <- openTab (url pr);
  if ok then
    now <- Date_now;
    ret (<[key pr := {[ "at" := toISOString now; "title" := title pr ]}]> notified)
  else ret notified.

Definition main : M unit :=
  config <- loadConfig;
  if paused config then log "Paused" else
  started <- Date_now;
  log ("[" +:+ toISOString started +:+ "] Started");;
  notified <- loadNotified;
  notified <- cleanupOldNotified notified (notifiedRetentionDays config);
  prs <- fetchPRs (excludeDraft config);
  log ("Fetched: " +:+ pretty (length prs) +:+ " PRs");;
  if bool_decide (length prs = 0%nat) then
    saveNotified notified;;
    log "No review requests"
  else
    let newPRs := select_new notified prs (maxTabsToOpen config) in
    log ("New: " +:+ pretty (length newPRs) +:+ " PRs");;
    notified <- for_of newPRs open_and_record notified;
    (if bool_decide (0 < length newPRs)%nat && enableNotification config then
       sendNotification "PR Opener"
         (pretty (length newPRs) +:+ "件の新しいPRがあります")
     else ret tt);;
    saveNotified notified;;
    log "Done".

End Program.

(** ** Observing a run *)

(** A process starts with the ledger file as it is on disk, and has neither
    read the clock nor launched anything. *)
Definition boot (f : file) : state :=
  {| NOTIFIED_FILE := f; reads := 0; spawned := 0; trace := [] |}.

(** URLs for which the browser was launched, in order. *)
Definition launches (tr : list event) : list string :=
  omap (λ e, match e with ExecOpen u _ => Some u | _ => None end) tr.

(** The launches with how each ended. *)
Definition outcomes (tr : list event) : list (string * bool) :=
  omap (λ e, match e with ExecOpen u ok => Some (u, ok) | _ => None end) tr.

(** URLs for which the launch exited cleanly. *)
Definition opened (tr : list event) : list string :=
  omap (λ e, match e with ExecOpen u true => Some u | _ => None end) tr.

(** Desktop notifications sent: title and message. *)
Definition notifications (tr : list event) : list (string * string) :=
  omap (λ e, match e with ExecOsascript t m => Some (t, m) | _ => None end) tr.

(** Ledgers written to [notified.json]. *)
Definition writes (tr : list event) : list ledger :=
  omap (λ e, match e with WriteNotified d => Some d | _ => None end) tr.

(** The configuration [loadConfig] returns in a run. *)
Definition config_of (E : env) : config := with_defaults (CONFIG_FILE E).

(** The same world, run for real with a browser whose every launch exits
    cleanly. *)
Definition browser_always_opens (E : env) : env :=
  {| DRY_RUN := false; CONFIG_FILE := CONFIG_FILE E;
     gh_search_prs := gh_search_prs E; clock := clock E; chrome := λ _, None |}.

(** Whether the n-th call of [openTab] in a run reports success. *)
Definition tab_ok (E : env) (n : nat) : bool :=
  DRY_RUN E || bool_decide (chrome E n = None).

(** Number of successes among [len] calls of [openTab] from the n-th on. *)
Fixpoint count_ok (E : env) (n len : nat) : nat :=
  match len with
  | O => 0
  | S len' => ((if tab_ok E n then 1 else 0) + count_ok E (S n) len')%nat
  end.

Section Run.
Context `{DateRuntime}.

Definition run (E : env) (f : file) : state := (main E (boot f)).2.

(** The list [fetchPRs] returns in a run. *)
Definition fetched (E : env) : list PR :=
  (fetchPRs (excludeDraft (config_of E)) E (boot Missing)).1.

(** The ledger after [cleanupOldNotified] in a run: the clock was read once
    before, for the line that logs the start. *)
Definition pruned (E : env) (f : file) : ledger :=
  (cleanupOldNotified (read_notified f) (notifiedRetentionDays (config_of E)) E
     {| NOTIFIED_FILE := f; reads := 1; spawned := 0; trace := [] |}).1.

(** [newPRs] in a run. *)
Definition selected (E : env) (f : file) : list PR :=
  select_new (pruned E f) (fetched E) (maxTabsToOpen (config_of E)).

(** The time an entry resolves to: field [at] when it is set, else the
    legacy [notifiedAt]; nothing when neither is set or the date is
    invalid. *)
Definition resolved_timestamp (value : entry) : option Z :=
  let timestamp := js_or (value !! "at") (value !! "notifiedAt") in
  if truthy timestamp then timestamp ≫= Date_parse else None.

(** The entry [{ at: new Date().toISOString(), title: pr.title }] for a
    reading [now] of the clock. *)
Definition stamped (now : Z) (pr : PR) : entry :=
  {[ "at" := toISOString now; "title" := title pr ]}.

(** The entry written for the i-th selected pull request when its tab
    opens: two readings of the clock precede the loop, and each earlier
    success took one. *)
Definition recorded (E : env) (i : nat) (pr : PR) : entry :=
  stamped (clock E (2 + count_ok E 0 i)) pr.

(** What [fetchPRs] adds to the trace: the failure of [gh], if it failed. *)
Definition fetch_events (E : env) : list event :=
  match gh_search_prs E (excludeDraft (config_of E)) with
  | inl message => [LogError ("GitHub API failed: " +:+ message)]
  | inr _ => []
  end.

(** The events before the selection: the start is logged, then a failure of
    [gh] if any, then the number of pull requests fetched. *)
Definition preamble (E : env) : list event :=
  [Log ("[" +:+ toISOString (clock E 0) +:+ "] Started")]
  ++ fetch_events E
  ++ [Log ("Fetched: " +:+ pretty (length (fetched E)) +:+ " PRs")].

(** What is on disk in [notified.json], read as [loadNotified] reads it. *)
Definition persisted (s : state) : ledger := read_notified (NOTIFIED_FILE s).

(** The ledger the loop over [newPRs] leaves, in closed form, when the next
    call of [openTab] is the n-th and the next reading of the clock the
    r-th. *)
Fixpoint record_from (E : env) (n r : nat) (l : list PR) (acc : ledger) : ledger :=
  match l with
  | [] => acc
  | p :: l' =>
      if tab_ok E n
      then record_from E (S n) (S r) l' (<[key p := stamped (clock E r) p]> acc)
      else record_from E (S n) r l' acc
  end.

(** The events one call of [openTab] adds to the trace, when the next launch
    is the n-th. *)
Definition tab_events (E : env) (n : nat) (u : string) : list event :=
  if DRY_RUN E then [Log ("[DRY-RUN] Would open: " +:+ u)]
  else match chrome E n with
       | None => [ExecOpen u true; Log ("Opened: " +:+ u)]
       | Some message =>
           [ExecOpen u false; LogError ("Failed: " +:+ u +:+ " " +:+ message)]
       end.

(** The events the whole loop adds. *)
Fixpoint loop_events (E : env) (n : nat) (l : list PR) : list event :=
  match l with
  | [] => []
  | p :: l' => tab_events E n (url p) ++ loop_events E (S n) l'
  end.

(** The ledger the loop leaves in a run. *)
Definition final_ledger (E : env) (f : file) : ledger :=
  record_from E 0 2 (selected E f) (pruned E f).

(** The notification after the loop: [newPRs.length > 0 &&
    config.enableNotification]. *)
Definition notify_events (E : env) (f : file) : list event :=
  if bool_decide (0 < length (selected E f))%nat && enableNotification (config_of E)
  then [ExecOsascript "PR Opener"
          (pretty (length (selected E f)) +:+ "件の新しいPRがあります")]
  else [].

End Run.

(** ** The subcommands *)

(** [writeFileSync(CONFIG_FILE, JSON.stringify(config, null, 2))]: what
    [config.json] parses to afterwards.  Every field of the record is
    written. *)
Definition saveConfig (config : config) : option config_json :=
  Some {| maxTabsToOpen_opt := Some (maxTabsToOpen config);
          paused_opt := Some (paused config);
          excludeDraft_opt := Some (excludeDraft config);
          notifiedRetentionDays_opt := Some (notifiedRetentionDays config);
          enableNotification_opt := Some (enableNotification config) |}.

(** [handleCommand(cmd)], from what [config.json] parses to (nothing when it
    is missing or corrupt) to what it parses to afterwards and the lines
    printed on the console. *)
Definition handleCommand (cmd : string) (CONFIG : option config_json) :
    option config_json * list string :=
  let config := with_defaults CONFIG in
  if String.eqb cmd "status" then
    (CONFIG, [if paused config then "⏸ Paused" else "▶ Active"])
  else
    let config :=
      {| maxTabsToOpen := maxTabsToOpen config;
         paused := String.eqb cmd "pause";
         excludeDraft := excludeDraft config;
         notifiedRetentionDays := notifiedRetentionDays config;
         enableNotification := enableNotification config |} in
    (saveConfig config, [if String.eqb cmd "pause" then "⏸ Paused" else "▶ Resumed"]).

(** The world with another [config.json]. *)
Definition with_config (CONFIG : option config_json) (E : env) : env :=
  {| DRY_RUN := DRY_RUN E; CONFIG_FILE := CONFIG;
     gh_search_prs := gh_search_prs E; clock := clock E; chrome := chrome E |}.

(** ** Statistics *)

(** [key.split('#')[0]]: the key up to its first ['#'], all of it when it has
    none. *)
Fixpoint before_hash (key : string) : string :=
  match key with
  | EmptyString => EmptyString
  | String c rest =>
      if Ascii.eqb c "#"%char then EmptyString else String c (before_hash rest)
  end.

(** [repoCounts] is an object used as a map from repositories to counts; it
    is kept as the list of its properties in the order of their creation,
    which is the order [Object.entries] yields for names such as
    ["<owner>/<repo>"].  [repoCounts[repo] || 0] reads it ... *)
Fixpoint count_of (repo : string) (repoCounts : list (string * nat)) : nat :=
  match repoCounts with
  | [] => 0
  | (r, n) :: rest => if String.eqb r repo then n else count_of repo rest
  end.

(** ... and [repoCounts[repo] = (repoCounts[repo] || 0) + 1] updates a
    property in place or creates it last. *)
Fixpoint bump (repo : string) (repoCounts : list (string * nat)) : list (string * nat) :=
  match repoCounts with
  | [] => [(repo, 1%nat)]
  | (r, n) :: rest =>
      if String.eqb r repo then (r, S n) :: rest else (r, n) :: bump repo rest
  end.

Definition count_repos (entries : list (string * gmap string string)) :
    list (string * nat) :=
  foldl (λ repoCounts e, bump (before_hash e.1) repoCounts) [] entries.

(** [sort((a, b) => b[1] - a[1])]: larger counts first.  The sort of
    JavaScript is stable, and a stable sort has one possible result, which is
    the one of this insertion sort: an element goes before the first one
    whose count is not larger than its own. *)
Fixpoint insert_desc (a : string * nat) (sorted : list (string * nat)) :
    list (string * nat) :=
  match sorted with
  | [] => [a]
  | b :: rest => if (a.2 <? b.2)%nat then b :: insert_desc a rest else a :: b :: rest
  end.

Definition sort_desc (l : list (string * nat)) : list (string * nat) :=
  foldr insert_desc [] l.

Section Stats.
Context `{DateRuntime}.

(** The entries [handleStats] counts as recent: those of the last seven
    days before [now]. *)
Definition recent_entries (entries : list (string * gmap string string)) (now : Z) :
    list (string * gmap string string) :=
  let sevenDaysAgo := now - 7 * 24 * 60 * 60 * 1000 in
  filter (λ e, is_recent sevenDaysAgo e.2) entries.

Definition topRepos (entries : list (string * gmap string string)) :
    list (string * nat) :=
  slice (sort_desc (count_repos entries)) 0 3.

(** [handleStats()]: the lines printed, for [entries] the properties of the
    parsed [notified.json] in their order ([Object.entries(loadNotified())])
    and [now] the reading of the clock. *)
Definition handleStats (entries : list (string * gmap string string)) (now : Z) :
    list string :=
  let total := length entries in
  let recent := length (recent_entries entries now) in
  [ "📊 PR Opener Stats";
    String.concat "" (replicate 30 "─");
    "Total PRs notified: " +:+ pretty total;
    "Last 7 days: " +:+ pretty recent;
    "" ]
  ++ (if bool_decide (0 < length (topRepos entries))%nat then
        "Top repositories:"
        :: imap (λ i rc, "  " +:+ pretty (i + 1)%nat +:+ ". " +:+ rc.1
                         +:+ " (" +:+ pretty rc.2 +:+ ")")
             (topRepos entries)
      else ["No PR history yet."]).

End Stats.

(** ** The command of [sendNotification] *)

Definition backslash : ascii := "092"%char.
Definition dquote : ascii := "034"%char.
Definition squote : ascii := "039"%char.

(** [s.replace(/c/g, by)] for a character [c] and a replacement without
    [$]: every [c] of [s] becomes [by]. *)
Fixpoint replace_all (c : ascii) (by_ : string) (s : string) : string :=
  match s with
  | EmptyString => EmptyString
  | String a rest =>
      (if Ascii.eqb a c then by_ else String a EmptyString) +:+ replace_all c by_ rest
  end.

(** [escapeAS]: backslashes are doubled first, then every double quote gets
    a backslash. *)
Definition escapeAS (s : string) : string :=
  replace_all dquote (String backslash (String dquote EmptyString))
    (replace_all backslash (String backslash (String backslash EmptyString)) s).

Definition notification_script (title message : string) : string :=
  "display notification " +:+ String dquote (escapeAS message)
  +:+ String dquote " with title " +:+ String dquote (escapeAS title)
  +:+ String dquote " sound name " +:+ String dquote "Glass" +:+ String dquote EmptyString.

(** [script.replace(/'/g, "'\''")]: every single quote becomes the four
    characters that close the quotes, give a quote and open them again. *)
Definition quote_sh (script : string) : string :=
  replace_all squote
    (String squote (String backslash (String squote (String squote EmptyString))))
    script.

(** The command line given to [execSync]. *)
Definition osascript_command (title message : string) : string :=
  "osascript -e " +:+ String squote (quote_sh (notification_script title message))
  +:+ String squote EmptyString.

(** How the two readers of that command read it.  The shell reads a word
    made of quoted parts: between single quotes every character stands for
    itself, and outside them a backslash makes the next character stand for
    itself.  [sh_quoted] reads from inside the quotes to the end of the
    word, [sh_bare] from outside them; characters the command never puts
    outside quotes are not read. *)
Fixpoint sh_quoted (s : string) : option string :=
  match s with
  | EmptyString => None
  | String c rest =>
      if Ascii.eqb c squote then sh_bare rest else String c <$> sh_quoted rest
  end
with sh_bare (s : string) : option string :=
  match s with
  | EmptyString => Some EmptyString
  | String c rest =>
      if Ascii.eqb c squote then sh_quoted rest
      else if Ascii.eqb c backslash then
        match rest with
        | String d rest' => String d <$> sh_bare rest'
        | EmptyString => None
        end
      else None
  end.

(** AppleScript reads a string literal, from after its opening quote, up to
    the first double quote that no backslash precedes; a backslash before a
    backslash or a double quote gives that character.  The result is the
    text of the literal and what follows it; other escapes are not read. *)
Fixpoint read_literal (s : string) : option (string * string) :=
  match s with
  | EmptyString => None
  | String c rest =>
      if Ascii.eqb c dquote then Some (EmptyString, rest)
      else if Ascii.eqb c backslash then
        match rest with
        | String d rest' =>
            if Ascii.eqb d backslash || Ascii.eqb d dquote
            then prod_map (String d) id <$> read_literal rest'
            else None
        | EmptyString => None
        end
      else prod_map (String c) id <$> read_literal rest
  end.

(** ** A small world to run the program in *)

Module Sample.

(** A fragment of the calendar: ISO-8601 strings and their time values. *)
Definition calendar : list (string * Z) :=
  [ ("2026-10-20T09:00:00.000Z", 1792486800000);
    ("2026-10-31T09:00:00.000Z", 1793437200000);
    ("2026-11-03T09:00:00.000Z", 1793696400000);
    ("2026-11-03T09:00:01.000Z", 1793696401000);
    ("2026-11-03T09:00:02.000Z", 1793696402000);
    ("2026-11-03T09:00:03.000Z", 1793696403000);
    ("2026-11-03T09:00:04.000Z", 1793696404000) ].

#[export] Instance dates : DateRuntime := {|
  Date_parse s := (λ r, r.2.2) <$> list_find (λ d, d.1 = s) calendar;
  toISOString t := default "" ((λ r, r.2.1) <$> list_find (λ d, d.2 = t) calendar);
|}.

(** The clock starts on 3 November 2026, 09:00 UTC, and each reading is one
    second after the one before. *)
Definition ticking (n : nat) : Z := 1793696400000 + 1000 * Z.of_nat n.

Definition pr (repo : string) (n : N) (t : string) : PR :=
  {| number := n;
     url := "https://github.com/" +:+ repo +:+ "/pull/" +:+ pretty n;
     repository := {| nameWithOwner := repo |};
     title := t;
     updatedAt := "2026-11-03T08:00:00Z" |}.

Definition three : list PR :=
  [ pr "acme/api" 7 "Fix login"; pr "acme/web" 12 "Add footer";
    pr "acme/api" 9 "Bump deps" ].

(** The same pull request listed twice, its title edited in between. *)
Definition twice : list PR :=
  [ pr "acme/api" 7 "Fix login"; pr "acme/api" 7 "Fix login, again" ].

Definition old_ledger : ledger :=
  {[ "acme/api#7" := {[ "at" := "2026-10-31T09:00:00.000Z"; "title" := "Fix login" ]};
     "acme/old#1" := {[ "notifiedAt" := "2026-10-20T09:00:00.000Z"; "title" := "Old" ]} ]}.

Definition no_config : option config_json := None.

Definition with_max (m : Z) : option config_json :=
  Some {| maxTabsToOpen_opt := Some m; paused_opt := None; excludeDraft_opt := None;
          notifiedRetentionDays_opt := None; enableNotification_opt := None |}.

(** Every launch of the browser exits cleanly. *)
Definition world (cfg : option config_json) (dry : bool) (prs : list PR) : env :=
  {| DRY_RUN := dry; CONFIG_FILE := cfg; gh_search_prs := λ _, inr prs;
     clock := ticking; chrome := λ _, None |}.

(** Every launch of the browser fails. *)
Definition broken_browser (prs : list PR) : env :=
  {| DRY_RUN := false; CONFIG_FILE := no_config; gh_search_prs := λ _, inr prs;
     clock := ticking; chrome := λ _, Some "Command failed" |}.

(** [gh] is not installed or not logged in: the search fails. *)
Definition gh_down : env :=
  {| DRY_RUN := false; CONFIG_FILE := no_config;
     gh_search_prs := λ _, inl "gh: command not found";
     clock := ticking; chrome := λ _, None |}.

Definition paused_config : option config_json :=
  Some {| maxTabsToOpen_opt := None; paused_opt := Some true; excludeDraft_opt := None;
          notifiedRetentionDays_opt := None; enableNotification_opt := None |}.

Definition with_retention (days : Z) : option config_json :=
  Some {| maxTabsToOpen_opt := None; paused_opt := None; excludeDraft_opt := None;
          notifiedRetentionDays_opt := Some days; enableNotification_opt := None |}.

(** An entry whose [at] is not a date, beside a legacy [notifiedAt] that is
    one. *)
Definition odd_entry : gmap string string :=
  {[ "at" := "yesterday"; "notifiedAt" := "2026-10-31T09:00:00.000Z";
     "title" := "Fix login" ]}.

Definition odd_ledger : ledger := {[ "acme/api#7" := odd_entry ]}.

(** A ledger file of five entries over three repositories, in the order of
    the file. *)
Definition history : list (string * gmap string string) :=
  [ ("acme/api#7", {[ "at" := "2026-11-03T09:00:00.000Z"; "title" := "Fix login" ]});
    ("acme/web#12", {[ "at" := "2026-11-03T09:00:01.000Z"; "title" := "Add footer" ]});
    ("acme/old#1", {[ "notifiedAt" := "2026-10-20T09:00:00.000Z"; "title" := "Old" ]});
    ("acme/web#3", {[ "at" := "2026-10-31T09:00:00.000Z"; "title" := "Fix header" ]});
    ("acme/api#9", {[ "at" := "2026-11-03T09:00:02.000Z"; "title" := "Bump deps" ]}) ].

End Sample.

(** * Properties *)

(** ** [slice] *)

Lemma slice_0_nonneg {A} (l : list A) (m : Z) :
  0 ≤ m → slice l 0 m = take (Z.to_nat m) l.
Proof.
  intros Hm. unfold slice, slice_index.
  replace (0 <? 0) with false by reflexivity.
  destruct (m <? 0) eqn:Hneg; [apply Z.ltb_lt in Hneg; lia|].
  rewrite (Z.min_l 0) by lia. change (Z.to_nat 0) with O.
  rewrite drop_0, Z.sub_0_r.
  destruct (decide (m ≤ Z.of_nat (length l))) as [Hle|Hgt].
  - by rewrite Z.min_l.
  - rewrite Z.min_r by lia. rewrite Nat2Z.id.
    rewrite !take_ge; [done| lia | lia].
Qed.

Lemma slice_0_neg {A} (l : list A) (m : Z) :
  m < 0 → slice l 0 m = take (length l - Z.to_nat (- m)) l.
Proof.
  intros Hm. unfold slice, slice_index.
  replace (0 <? 0) with false by reflexivity.
  destruct (m <? 0) eqn:Hneg; [|apply Z.ltb_ge in Hneg; lia].
  rewrite (Z.min_l 0) by lia. change (Z.to_nat 0) with O.
  rewrite drop_0, Z.sub_0_r.
  f_equal. lia.
Qed.

Section Facts.
Context `{DateRuntime}.

(** ** Pruning *)

Lemma is_recent_resolved (cutoff : Z) (value : entry) :
  is_recent cutoff value = true ↔
  ∃ t, resolved_timestamp value = Some t ∧ cutoff < t.
Proof.
  unfold is_recent, resolved_timestamp.
  destruct (truthy _); simpl.
  - destruct (_ ≫= Date_parse) as [t|].
    + rewrite Z.ltb_lt. split; [eauto|]. by intros (? & [= <-] & ?).
    + split; [done|]. by intros (? & ? & ?).
  - split; [done|]. by intros (? & ? & ?).
Qed.

Lemma prune_lookup (cutoff : Z) (notified : ledger) (k : string) :
  map_fold
    (λ key value cleaned,
       if is_recent cutoff value then <[key := value]> cleaned else cleaned)
    (∅ : ledger) notified !! k
  = notified !! k ≫= (λ v, if is_recent cutoff v then Some v else None).
Proof.
  revert k.
  induction notified as [|i x m Hi Hfold IH] using map_first_key_ind; intros k.
  - by rewrite map_fold_empty, !lookup_empty.
  - rewrite map_fold_insert_first_key by done.
    destruct (decide (i = k)) as [->|Hne].
    + rewrite lookup_insert_eq. simpl.
      destruct (is_recent cutoff x).
      * by rewrite lookup_insert_eq.
      * by rewrite IH, Hi.
    + rewrite (lookup_insert_ne m) by done.
      destruct (is_recent cutoff x); [rewrite lookup_insert_ne by done|]; apply IH.
Qed.

Lemma cleanup_run (notified : ledger) (R : Z) (E : env) (s : state) :
  cleanupOldNotified notified R E s =
  (map_fold
     (λ key value cleaned,
        if is_recent (clock E (reads s) - R * 24 * 60 * 60 * 1000) value
        then <[key := value]> cleaned else cleaned)
     (∅ : ledger) notified,
   {| NOTIFIED_FILE := NOTIFIED_FILE s; reads := S (reads s);
      spawned := spawned s; trace := trace s |}).
Proof. reflexivity. Qed.

Lemma pruned_lookup (E : env) (f : file) (k : string) :
  pruned E f !! k =
  read_notified f !! k ≫=
    (λ v, if is_recent
               (clock E 1 - notifiedRetentionDays (config_of E) * 24 * 60 * 60 * 1000) v
          then Some v else None).
Proof. unfold pruned. rewrite cleanup_run. simpl. apply prune_lookup. Qed.

(** ** The loop over the selected pull requests *)

Lemma tab_ok_dry (E : env) (n : nat) : DRY_RUN E = true → tab_ok E n = true.
Proof. unfold tab_ok. by intros ->. Qed.

Lemma tab_ok_real (E : env) (n : nat) :
  DRY_RUN E = false → tab_ok E n = bool_decide (chrome E n = None).
Proof. unfold tab_ok. by intros ->. Qed.

Lemma record_from_dry (E : env) (l : list PR) :
  DRY_RUN E = true →
  ∀ n n' r acc, record_from E n r l acc = record_from E n' r l acc.
Proof.
  intros Hdry. induction l as [|p l IH]; intros n n' r acc; simpl; [done|].
  rewrite !tab_ok_dry by done. apply IH.
Qed.

Lemma count_ok_dry (E : env) (len : nat) :
  DRY_RUN E = true → ∀ n n', count_ok E n len = count_ok E n' len.
Proof.
  intros Hdry. induction len as [|len IH]; intros n n'; simpl; [done|].
  rewrite !tab_ok_dry by done. f_equal. apply IH.
Qed.

Lemma loop_events_dry (E : env) (l : list PR) :
  DRY_RUN E = true → ∀ n n', loop_events E n l = loop_events E n' l.
Proof.
  intros Hdry. induction l as [|p l IH]; intros n n'; simpl; [done|].
  unfold tab_events. rewrite Hdry. f_equal. apply IH.
Qed.

Lemma openTab_run (u : string) (E : env) (s : state) :
  openTab u E s =
  (tab_ok E (spawned s),
   {| NOTIFIED_FILE := NOTIFIED_FILE s; reads := reads s;
      spawned := if DRY_RUN E then spawned s else S (spawned s);
      trace := trace s ++ tab_events E (spawned s) u |}).
Proof.
  unfold openTab, tab_ok, tab_events, execSync_open, bind, ask, log, logError, emit, ret.
  destruct (DRY_RUN E); simpl; [done|].
  destruct (chrome E (spawned s)); simpl; by rewrite <-app_assoc.
Qed.

Lemma open_and_record_run (p : PR) (acc : ledger) (E : env) (s : state) :
  open_and_record p acc E s =
  (if tab_ok E (spawned s) then <[key p := stamped (clock E (reads s)) p]> acc else acc,
   {| NOTIFIED_FILE := NOTIFIED_FILE s;
      reads := if tab_ok E (spawned s) then S (reads s) else reads s;
      spawned := if DRY_RUN E then spawned s else S (spawned s);
      trace := trace s ++ tab_events E (spawned s) (url p) |}).
Proof.
  unfold open_and_record, bind. rewrite openTab_run.
  by destruct (tab_ok E (spawned s)).
Qed.

Lemma loop_run (E : env) (l : list PR) :
  ∀ (acc : ledger) (s : state),
    for_of l open_and_record acc E s =
    (record_from E (spawned s) (reads s) l acc,
     {| NOTIFIED_FILE := NOTIFIED_FILE s;
        reads := reads s + count_ok E (spawned s) (length l);
        spawned := if DRY_RUN E then spawned s else spawned s + length l;
        trace := trace s ++ loop_events E (spawned s) l |}).
Proof.
  induction l as [|p l IH]; intros acc s.
  - simpl. unfold ret. destruct s as [nf r n tr]; simpl.
    rewrite !Nat.add_0_r, app_nil_r. by destruct (DRY_RUN E).
  - cbn [for_of]. unfold bind. rewrite open_and_record_run, IH.
    cbn [NOTIFIED_FILE reads spawned trace record_from count_ok loop_events length].
    destruct (DRY_RUN E) eqn:Hdry.
    + rewrite (tab_ok_dry E) by done.
      rewrite (record_from_dry E l Hdry (S (spawned s)) (spawned s)).
      rewrite (count_ok_dry E (length l) Hdry (S (spawned s)) (spawned s)).
      rewrite (loop_events_dry E l Hdry (S (spawned s)) (spawned s)).
      f_equal. f_equal; [lia|]. by rewrite <-app_assoc.
    + destruct (tab_ok E (spawned s)).
      * f_equal. f_equal; [lia | lia|]. by rewrite <-app_assoc.
      * f_equal. f_equal; [lia|]. by rewrite <-app_assoc.
Qed.

(** ** One run, in closed form *)

Lemma fetchPRs_run (E : env) (s : state) :
  fetchPRs (excludeDraft (config_of E)) E s =
  (fetched E,
   {| NOTIFIED_FILE := NOTIFIED_FILE s; reads := reads s; spawned := spawned s;
      trace := trace s ++ fetch_events E |}).
Proof.
  unfold fetched, fetch_events, fetchPRs, bind, ask, logError, emit, ret.
  destruct (gh_search_prs E _); simpl; [done|].
  destruct s; simpl. by rewrite app_nil_r.
Qed.

Lemma run_paused (E : env) (f : file) :
  paused (config_of E) = true →
  run E f = {| NOTIFIED_FILE := f; reads := 0; spawned := 0; trace := [Log "Paused"] |}.
Proof.
  intros Hp. unfold run, main, bind at 1, loadConfig, bind at 1, ask, ret.
  fold (config_of E). by rewrite Hp.
Qed.

Lemma run_started (E : env) (f : file) :
  paused (config_of E) = false →
  run E f =
  (let s0 := {| NOTIFIED_FILE := f; reads := 2; spawned := 0; trace := preamble E |} in
   if bool_decide (length (fetched E) = 0%nat) then
     (saveNotified (pruned E f);; log "No review requests") E s0
   else
     (let newPRs := selected E f in
      log ("New: " +:+ pretty (length newPRs) +:+ " PRs");;
      notified <- for_of newPRs open_and_record (pruned E f);
      (if bool_decide (0 < length newPRs)%nat && enableNotification (config_of E) then
         sendNotification "PR Opener"
           (pretty (length newPRs) +:+ "件の新しいPRがあります")
       else ret tt);;
      saveNotified notified;;
      log "Done") E s0).2.
Proof.
  intros Hp. unfold run, main, bind at 1, loadConfig, bind at 1, ask, ret.
  fold (config_of E). rewrite Hp.
  unfold bind at 1, Date_now. unfold bind at 1, log at 1, emit.
  unfold bind at 1, loadNotified. unfold bind at 1. rewrite cleanup_run.
  unfold bind at 1. rewrite fetchPRs_run.
  unfold bind at 1, log at 1, emit.
  cbn [NOTIFIED_FILE reads spawned trace boot app].
  unfold selected, pruned. rewrite cleanup_run.
  cbn [NOTIFIED_FILE reads spawned trace fst].
  unfold preamble. cbn [app]. by destruct (bool_decide (length (fetched E) = 0%nat)).
Qed.

Lemma run_empty (E : env) (f : file) :
  paused (config_of E) = false →
  fetched E = [] →
  run E f =
  {| NOTIFIED_FILE := Content (pruned E f); reads := 2; spawned := 0;
     trace := preamble E ++ [WriteNotified (pruned E f); Log "No review requests"] |}.
Proof.
  intros Hp Hnil. rewrite run_started by done. rewrite Hnil. simpl.
  unfold bind, saveNotified, log, emit. simpl. by rewrite <-app_assoc.
Qed.

Lemma run_open (E : env) (f : file) :
  paused (config_of E) = false →
  fetched E ≠ [] →
  run E f =
  {| NOTIFIED_FILE := Content (final_ledger E f);
     reads := 2 + count_ok E 0 (length (selected E f));
     spawned := if DRY_RUN E then 0 else length (selected E f);
     trace :=
       preamble E
       ++ [Log ("New: " +:+ pretty (length (selected E f)) +:+ " PRs")]
       ++ loop_events E 0 (selected E f)
       ++ notify_events E f
       ++ [WriteNotified (final_ledger E f); Log "Done"] |}.
Proof.
  intros Hp Hne. rewrite run_started by done.
  rewrite bool_decide_eq_false_2 by (by destruct (fetched E)).
  cbv zeta. unfold bind at 1, log at 1, emit. unfold bind at 1.
  rewrite loop_run. cbn [NOTIFIED_FILE reads spawned trace].
  unfold notify_events, final_ledger.
  destruct (bool_decide (0 < length (selected E f))%nat && enableNotification (config_of E));
    unfold bind, sendNotification, saveNotified, log, emit, ret; simpl;
    rewrite <-?app_assoc; simpl; reflexivity.
Qed.

(** ** Reading a trace *)

Lemma launches_app (a b : list event) : launches (a ++ b) = launches a ++ launches b.
Proof. apply omap_app. Qed.

Lemma opened_app (a b : list event) : opened (a ++ b) = opened a ++ opened b.
Proof. apply omap_app. Qed.

Lemma outcomes_app (a b : list event) : outcomes (a ++ b) = outcomes a ++ outcomes b.
Proof. apply omap_app. Qed.

Lemma notifications_app (a b : list event) :
  notifications (a ++ b) = notifications a ++ notifications b.
Proof. apply omap_app. Qed.

Lemma writes_app (a b : list event) : writes (a ++ b) = writes a ++ writes b.
Proof. apply omap_app. Qed.

Lemma preamble_quiet (E : env) :
  launches (preamble E) = [] ∧ opened (preamble E) = [] ∧
  notifications (preamble E) = [] ∧ writes (preamble E) = [].
Proof. unfold preamble, fetch_events. by destruct (gh_search_prs E _). Qed.

Lemma preamble_outcomes (E : env) : outcomes (preamble E) = [].
Proof. unfold preamble, fetch_events. by destruct (gh_search_prs E _). Qed.

Lemma loop_events_outcomes (E : env) (l : list PR) (n : nat) :
  DRY_RUN E = false →
  outcomes (loop_events E n l) = imap (λ j p, (url p, tab_ok E (n + j))) l.
Proof.
  intros Hdry. revert n. induction l as [|p l IH]; intros n; [done|].
  cbn [loop_events]. rewrite outcomes_app, IH, imap_cons, Nat.add_0_r.
  rewrite tab_ok_real by done. unfold tab_events. rewrite Hdry.
  destruct (chrome E n); simpl; f_equal; apply imap_ext; intros j x _; simpl;
    by rewrite Nat.add_succ_r.
Qed.

Lemma loop_events_launches (E : env) (l : list PR) (n : nat) :
  launches (loop_events E n l) = if DRY_RUN E then [] else url <$> l.
Proof.
  revert n. induction l as [|p l IH]; intros n; simpl.
  - by destruct (DRY_RUN E).
  - rewrite launches_app, IH. unfold tab_events.
    destruct (DRY_RUN E); [done|]. by destruct (chrome E n).
Qed.

Lemma loop_events_quiet (E : env) (l : list PR) (n : nat) :
  notifications (loop_events E n l) = [] ∧ writes (loop_events E n l) = [].
Proof.
  revert n. induction l as [|p l IH]; intros n; simpl; [done|].
  rewrite notifications_app, writes_app.
  destruct (IH (S n)) as [-> ->]. unfold tab_events.
  destruct (DRY_RUN E); [done|]. by destruct (chrome E n).
Qed.

Lemma loop_events_dry_opened (E : env) (l : list PR) (n : nat) :
  DRY_RUN E = true → opened (loop_events E n l) = [].
Proof.
  intros Hdry. revert n. induction l as [|p l IH]; intros n; simpl; [done|].
  rewrite opened_app, IH. unfold tab_events. by rewrite Hdry.
Qed.

Lemma notify_events_quiet (E : env) (f : file) :
  launches (notify_events E f) = [] ∧ opened (notify_events E f) = [] ∧
  writes (notify_events E f) = [] ∧ outcomes (notify_events E f) = [].
Proof. unfold notify_events. by destruct (_ && _). Qed.

(** ** The ledger the loop leaves *)

Lemma record_from_none (E : env) (l : list PR) (k : string) :
  ∀ n r (acc : ledger),
    (∀ i p, l !! i = Some p → key p = k → tab_ok E (n + i) = false) →
    record_from E n r l acc !! k = acc !! k.
Proof.
  induction l as [|a l IH]; intros n r acc Hfail; simpl; [done|].
  assert (∀ i p, l !! i = Some p → key p = k → tab_ok E (S n + i) = false) as Hrest.
  { intros i p Hi Hk. replace (S n + i)%nat with (n + S i)%nat by lia.
    by apply (Hfail (S i) p). }
  destruct (tab_ok E n) eqn:Hok.
  - rewrite IH by done. apply lookup_insert_ne. intros Hk.
    specialize (Hfail 0%nat a eq_refl Hk). rewrite Nat.add_0_r in Hfail. congruence.
  - by apply IH.
Qed.

Lemma record_from_last (E : env) (l : list PR) :
  ∀ n r (acc : ledger) i p,
    l !! i = Some p →
    tab_ok E (n + i) = true →
    (∀ j q, (i < j)%nat → l !! j = Some q → key q = key p → tab_ok E (n + j) = false) →
    record_from E n r l acc !! key p = Some (stamped (clock E (r + count_ok E n i)) p).
Proof.
  induction l as [|a l IH]; intros n r acc i p Hi Hok Hlater; [done|].
  destruct i as [|i]; simpl in *.
  - injection Hi as ->. rewrite Nat.add_0_r in *. rewrite Hok.
    rewrite record_from_none; [by rewrite lookup_insert_eq|].
    intros j q Hj Hk. replace (S n + j)%nat with (n + S j)%nat by lia.
    apply (Hlater (S j) q); [lia|done..].
  - assert (∀ j q, (i < j)%nat → l !! j = Some q → key q = key p →
                   tab_ok E (S n + j) = false) as Hrest.
    { intros j q Hlt Hj Hk. replace (S n + j)%nat with (n + S j)%nat by lia.
      apply (Hlater (S j) q); [lia|done..]. }
    rewrite Nat.add_succ_r in Hok.
    destruct (tab_ok E n).
    + rewrite (IH (S n) (S r) _ i p Hi Hok Hrest). do 3 f_equal. lia.
    + by rewrite (IH (S n) r _ i p Hi Hok Hrest).
Qed.

Lemma record_from_is_Some (E : env) (l : list PR) (k : string) :
  ∀ n r (acc : ledger),
    is_Some (record_from E n r l acc !! k) ↔
    is_Some (acc !! k) ∨ ∃ i p, l !! i = Some p ∧ key p = k ∧ tab_ok E (n + i) = true.
Proof.
  induction l as [|a l IH]; intros n r acc; simpl.
  - split; [by left|]. intros [?|(i & p & Hi & _)]; done.
  - destruct (tab_ok E n) eqn:Hok; rewrite IH; clear IH.
    + rewrite lookup_insert_is_Some. split.
      * intros [[Hk|[_ ?]]|(i & p & Hi & Hk & Hi_ok)].
        -- right. exists 0%nat, a. by rewrite Nat.add_0_r.
        -- by left.
        -- right. exists (S i), p. by rewrite Nat.add_succ_r.
      * intros [?|(i & p & Hi & Hk & Hi_ok)].
        -- left. destruct (decide (key a = k)); [by left | by right].
        -- destruct i as [|i]; simpl in Hi.
           ++ injection Hi as ->. left. by left.
           ++ right. exists i, p. by rewrite Nat.add_succ_r in Hi_ok.
    + split.
      * intros [?|(i & p & Hi & Hk & Hi_ok)]; [by left|].
        right. exists (S i), p. by rewrite Nat.add_succ_r.
      * intros [?|(i & p & Hi & Hk & Hi_ok)]; [by left|].
        destruct i as [|i]; simpl in Hi.
        -- injection Hi as ->. rewrite Nat.add_0_r in Hi_ok. congruence.
        -- right. exists i, p. by rewrite Nat.add_succ_r in Hi_ok.
Qed.

(** ** The selection *)

Lemma is_new_absent (notified : ledger) (p : PR) :
  is_new notified p ↔ notified !! key p = None.
Proof. unfold is_new. by destruct (notified !! key p). Qed.

Lemma select_new_nonneg (notified : ledger) (prs : list PR) (m : Z) :
  0 ≤ m →
  select_new notified prs m =
  take (Z.to_nat m) (filter (λ p, notified !! key p = None) prs).
Proof.
  intros Hm. unfold select_new. rewrite slice_0_nonneg by done. f_equal.
  apply list_filter_iff. intros p. apply is_new_absent.
Qed.

Lemma select_new_neg (notified : ledger) (prs : list PR) (m : Z) :
  m < 0 →
  select_new notified prs m =
  let new := filter (λ p, notified !! key p = None) prs in
  take (length new - Z.to_nat (- m)) new.
Proof.
  intros Hm. unfold select_new. rewrite slice_0_neg by done. cbv zeta.
  by rewrite (list_filter_iff _ (λ p, notified !! key p = None) prs)
    by (intros p; apply is_new_absent).
Qed.

(** Whatever the limit is, the selection is a prefix of the new pull
    requests. *)
Lemma select_new_prefix (notified : ledger) (prs : list PR) (m : Z) :
  ∃ n, select_new notified prs m =
       take n (filter (λ p, notified !! key p = None) prs).
Proof.
  destruct (decide (0 ≤ m)).
  - eexists. by apply select_new_nonneg.
  - eexists. rewrite select_new_neg by lia. reflexivity.
Qed.

Lemma select_new_elem (notified : ledger) (prs : list PR) (m : Z) (p : PR) :
  p ∈ select_new notified prs m → p ∈ prs ∧ notified !! key p = None.
Proof.
  destruct (select_new_prefix notified prs m) as [n ->].
  intros Hin. apply elem_of_take in Hin as (i & Hi & _).
  apply list_elem_of_lookup_2, list_elem_of_filter in Hi. tauto.
Qed.

Lemma select_new_sublist (notified : ledger) (prs : list PR) (m : Z) :
  select_new notified prs m `sublist_of` prs.
Proof.
  destruct (select_new_prefix notified prs m) as [n ->].
  etrans; [apply sublist_take | apply sublist_filter].
Qed.

Lemma selected_nil (E : env) (f : file) : fetched E = [] → selected E f = [].
Proof.
  intros Hf. apply sublist_nil_r. rewrite <-Hf. apply select_new_sublist.
Qed.

(** Filtering keeps the order: two elements that pass are found again, the
    first before the second. *)
Lemma filter_keeps_order {A} (P : A → Prop) `{!∀ x, Decision (P x)}
    (l : list A) (i j : nat) (x y : A) :
  (i < j)%nat → l !! i = Some x → l !! j = Some y → P x → P y →
  ∃ i' j', (i' < j')%nat ∧ filter P l !! i' = Some x ∧ filter P l !! j' = Some y.
Proof.
  revert i j. induction l as [|a l IH]; intros i j Hlt Hi Hj Hx Hy; [done|].
  destruct j as [|j]; [lia|]. simpl in Hj.
  destruct i as [|i]; simpl in Hi.
  - injection Hi as ->. rewrite filter_cons_True by done.
    apply list_elem_of_lookup_2 in Hj.
    assert (y ∈ filter P l) as Hin by (by apply list_elem_of_filter).
    apply list_elem_of_lookup_1 in Hin as [j' Hj'].
    exists 0%nat, (S j'). split; [lia|done].
  - destruct (IH i j) as (i' & j' & Hlt' & Hi' & Hj'); [lia|done..|].
    rewrite filter_cons. destruct (decide (P a)).
    + exists (S i'), (S j'). split; [lia|done].
    + by exists i', j'.
Qed.

Lemma filter_all {A} (P : A → Prop) `{!∀ x, Decision (P x)} (l : list A) :
  (∀ x, x ∈ l → P x) → filter P l = l.
Proof.
  induction l as [|a l IH]; intros Hall; [done|].
  rewrite filter_cons_True by (apply Hall; left).
  f_equal. apply IH. intros x Hx. apply Hall. by right.
Qed.

Lemma loop_events_opened_all (E : env) (l : list PR) (n : nat) :
  DRY_RUN E = false → (∀ i, chrome E i = None) →
  opened (loop_events E n l) = url <$> l.
Proof.
  intros Hdry Hok. revert n. induction l as [|p l IH]; intros n; simpl; [done|].
  rewrite opened_app, IH. unfold tab_events. by rewrite Hdry, Hok.
Qed.

(** ** What a run leaves behind *)

(** A run that is not paused either fetched nothing or went through the
    loop: rewrite it to its closed form in both cases. *)
Ltac run_cases E f :=
  let Hf := fresh "Hf" in
  destruct (fetched E) as [|? ?] eqn:Hf;
  [ rewrite run_empty by done; rewrite ?(selected_nil E f) by done
  | rewrite run_open by (rewrite ?Hf; done) ];
  cbn [trace NOTIFIED_FILE].

Lemma run_launches (E : env) (f : file) :
  launches (trace (run E f)) =
  (if paused (config_of E) || DRY_RUN E then [] else url <$> selected E f).
Proof.
  destruct (paused (config_of E)) eqn:Hp; simpl.
  { by rewrite run_paused. }
  destruct (preamble_quiet E) as (Hpre & _).
  run_cases E f; rewrite !launches_app, Hpre.
  - by destruct (DRY_RUN E).
  - rewrite loop_events_launches.
    destruct (notify_events_quiet E f) as (-> & _). simpl.
    by rewrite app_nil_r.
Qed.

Lemma run_outcomes (E : env) (f : file) :
  paused (config_of E) = false → DRY_RUN E = false →
  outcomes (trace (run E f)) = imap (λ j p, (url p, tab_ok E j)) (selected E f).
Proof.
  intros Hp Hdry. pose proof (preamble_outcomes E) as Hpre.
  run_cases E f; rewrite !outcomes_app, Hpre; [done|].
  rewrite loop_events_outcomes by done.
  destruct (notify_events_quiet E f) as (_ & _ & _ & ->). simpl.
  by rewrite app_nil_r.
Qed.

Lemma run_opened_all (E : env) (f : file) :
  paused (config_of E) = false → DRY_RUN E = false → (∀ n, chrome E n = None) →
  opened (trace (run E f)) = url <$> selected E f.
Proof.
  intros Hp Hdry Hok.
  destruct (preamble_quiet E) as (_ & Hpre & _).
  run_cases E f; rewrite !opened_app, Hpre; [done|].
  rewrite loop_events_opened_all by done.
  destruct (notify_events_quiet E f) as (_ & -> & _). simpl.
  by rewrite app_nil_r.
Qed.

Lemma run_notifications (E : env) (f : file) :
  notifications (trace (run E f)) =
  (if negb (paused (config_of E)) && bool_decide (selected E f ≠ [])
      && enableNotification (config_of E)
   then [("PR Opener", pretty (length (selected E f)) +:+ "件の新しいPRがあります")]
   else []).
Proof.
  destruct (paused (config_of E)) eqn:Hp; simpl.
  { by rewrite run_paused. }
  destruct (preamble_quiet E) as (_ & _ & Hpre & _).
  run_cases E f; rewrite !notifications_app, Hpre; [done|].
  destruct (loop_events_quiet E (selected E f) 0) as [-> _].
  unfold notify_events. simpl.
  destruct (selected E f) as [|q qs]; simpl; [done|].
  by destruct (enableNotification (config_of E)).
Qed.

Lemma final_ledger_nil (E : env) (f : file) :
  fetched E = [] → final_ledger E f = pruned E f.
Proof. intros Hf. unfold final_ledger. by rewrite selected_nil. Qed.

Lemma run_saved (E : env) (f : file) :
  paused (config_of E) = false →
  NOTIFIED_FILE (run E f) = Content (final_ledger E f) ∧
  writes (trace (run E f)) = [final_ledger E f].
Proof.
  intros Hp. destruct (preamble_quiet E) as (_ & _ & _ & Hpre).
  destruct (fetched E) as [|p0 prs] eqn:Hf.
  - rewrite run_empty, final_ledger_nil by done. cbn [trace NOTIFIED_FILE].
    by rewrite writes_app, Hpre.
  - rewrite run_open by (rewrite ?Hf; done). cbn [trace NOTIFIED_FILE].
    rewrite !writes_app, Hpre.
    destruct (loop_events_quiet E (selected E f) 0) as [_ ->].
    by destruct (notify_events_quiet E f) as (_ & _ & -> & _).
Qed.

Lemma persisted_run (E : env) (f : file) :
  paused (config_of E) = false → persisted (run E f) = final_ledger E f.
Proof. intros Hp. unfold persisted. by destruct (run_saved E f Hp) as [-> _]. Qed.

Lemma pruned_subset (E : env) (f : file) (k : string) :
  read_notified f !! k = None → pruned E f !! k = None.
Proof. intros Hk. by rewrite pruned_lookup, Hk. Qed.

Lemma selected_absent (E : env) (f : file) (i : nat) (p : PR) :
  selected E f !! i = Some p → pruned E f !! key p = None.
Proof.
  intros Hi. apply list_elem_of_lookup_2 in Hi.
  by apply select_new_elem in Hi as [_ ?].
Qed.

Lemma count_ok_all (E : env) (len : nat) :
  (∀ n, tab_ok E n = true) → ∀ n, count_ok E n len = len.
Proof.
  intros Hok. induction len as [|len IH]; intros n; simpl; [done|].
  by rewrite Hok, IH.
Qed.

Lemma record_from_ext (E E' : env) (l : list PR) :
  (∀ n, tab_ok E n = tab_ok E' n) → (∀ n, clock E n = clock E' n) →
  ∀ n r (acc : ledger), record_from E n r l acc = record_from E' n r l acc.
Proof.
  intros Hok Hclock. induction l as [|p l IH]; intros n r acc; simpl; [done|].
  rewrite Hok, Hclock. destruct (tab_ok E' n); apply IH.
Qed.

Lemma fetched_always_opens (E : env) :
  fetched (browser_always_opens E) = fetched E.
Proof.
  unfold fetched, fetchPRs, bind, ask. simpl.
  by destruct (gh_search_prs E _).
Qed.

Lemma selected_always_opens (E : env) (f : file) :
  selected (browser_always_opens E) f = selected E f.
Proof. unfold selected. by rewrite fetched_always_opens. Qed.

End Facts.

(** * The specification, property by property *)

Section Claims.
Context `{DateRuntime}.

(** C1. In every run, a fetched pull request whose identity key is in the
    pruned ledger is not selected, whatever its title and [updatedAt] are;
    every selected pull request was fetched and has its key absent from the
    pruned ledger; and the browser is launched for the selected pull
    requests only. *)
Theorem C1_ledger_keys_are_not_reopened (E : env) (f : file) :
  (∀ p, is_Some (pruned E f !! key p) → p ∉ selected E f) ∧
  (∀ p, p ∈ selected E f → p ∈ fetched E ∧ pruned E f !! key p = None) ∧
  launches (trace (run E f)) =
    (if paused (config_of E) || DRY_RUN E then [] else url <$> selected E f).
Proof.
  split_and!.
  - intros p [e He] Hin. apply select_new_elem in Hin as [_ Hnone]. congruence.
  - intros p. apply select_new_elem.
  - apply run_launches.
Qed.

(** C2. [cleanupOldNotified] returns exactly the entries of its argument
    whose resolved timestamp ([at] when set, else [notifiedAt]) is strictly
    newer than now minus R days, each with its value unchanged; an entry
    whose timestamp does not resolve to a valid time is dropped; and the
    call writes no file, launches nothing and logs nothing. *)
Theorem C2_prune_keeps_exactly_the_recent (notified : ledger) (R : Z)
    (E : env) (s : state) :
  let now := clock E (reads s) in
  let r := cleanupOldNotified notified R E s in
  (∀ k v, r.1 !! k = Some v ↔
          notified !! k = Some v ∧
          ∃ t, resolved_timestamp v = Some t ∧ now - R * (24 * 60 * 60 * 1000) < t) ∧
  (∀ k v, notified !! k = Some v → resolved_timestamp v = None → r.1 !! k = None) ∧
  NOTIFIED_FILE r.2 = NOTIFIED_FILE s ∧ trace r.2 = trace s ∧ spawned r.2 = spawned s.
Proof.
  intros now r. subst r. rewrite cleanup_run. cbn [fst snd].
  replace (clock E (reads s) - R * 24 * 60 * 60 * 1000)
    with (now - R * (24 * 60 * 60 * 1000)) by (subst now; lia).
  split_and!; try done.
  - intros k v. rewrite prune_lookup, <-is_recent_resolved.
    destruct (notified !! k) as [w|]; simpl.
    + destruct (is_recent _ w) eqn:Hw.
      * split; [by intros [= <-] | by intros [[= <-] _]].
      * split; [done | intros [[= <-] ?]; congruence].
    + split; [done | by intros [? _]].
  - intros k v Hk Hnone. rewrite prune_lookup, Hk. simpl.
    destruct (is_recent _ v) eqn:Hv; [|done].
    apply is_recent_resolved in Hv as (t & Ht & _). congruence.
Qed.

(** C3. Pruning is idempotent: pruning the result of a prune again, with the
    same retention and at the same reading of the clock, changes nothing. *)
Theorem C3_prune_idempotent (notified : ledger) (R : Z) (E : env) (s : state) :
  (cleanupOldNotified (cleanupOldNotified notified R E s).1 R E s).1 =
  (cleanupOldNotified notified R E s).1.
Proof.
  rewrite !cleanup_run. cbn [fst]. apply map_eq. intros k.
  rewrite !prune_lookup.
  destruct (notified !! k) as [v|]; simpl; [|done].
  destruct (is_recent _ v) eqn:Hv; simpl; [|done]. by rewrite Hv.
Qed.

(** C4. With a limit that is not negative, the selection is the fetched
    pull requests whose key is absent from the pruned ledger, in fetch order,
    cut to the first [maxTabsToOpen] of them; when none of N fetched pull
    requests is in the ledger the first min(N, M) of the fetch are selected,
    and a real run launches the browser for exactly those, in that order. *)
Theorem C4_diff_filters_then_truncates (E : env) (f : file) :
  0 ≤ maxTabsToOpen (config_of E) →
  let M := Z.to_nat (maxTabsToOpen (config_of E)) in
  selected E f = take M (filter (λ p, pruned E f !! key p = None) (fetched E)) ∧
  selected E f `sublist_of` fetched E ∧
  ((∀ p, p ∈ fetched E → pruned E f !! key p = None) →
   selected E f = take M (fetched E) ∧
   length (selected E f) = (length (fetched E) `min` M)%nat ∧
   (paused (config_of E) = false → DRY_RUN E = false →
    launches (trace (run E f)) = url <$> take M (fetched E) ∧
    length (launches (trace (run E f))) = (length (fetched E) `min` M)%nat ∧
    ((∀ n, chrome E n = None) →
     opened (trace (run E f)) = launches (trace (run E f))))).
Proof.
  intros Hm M.
  assert (selected E f = take M (filter (λ p, pruned E f !! key p = None) (fetched E)))
    as Hsel by (by apply select_new_nonneg).
  split_and!; [done | apply select_new_sublist |].
  intros Hall. rewrite filter_all in Hsel by done.
  assert (length (selected E f) = (length (fetched E) `min` M)%nat) as Hlen.
  { rewrite Hsel, length_take. lia. }
  split_and!; [done..|]. intros Hp Hdry.
  pose proof (run_launches E f) as Hl.
  rewrite Hp, Hdry in Hl. simpl in Hl.
  split_and!.
  - by rewrite Hl, Hsel.
  - by rewrite Hl, length_fmap.
  - intros Hok. rewrite Hl. by apply run_opened_all.
Qed.

(** C5. For every selected pull request, one pass of the loop adds the
    entry [{ at: now, title }] under its identity key exactly when [openTab]
    reports success, and leaves the ledger as it is otherwise.  The open of
    the i-th selected pull request succeeds when [tab_ok E i] holds: always
    in a dry run, and in a real run when the i-th launch exits cleanly.  So
    its key is in the ledger the run persists exactly when an open for that
    key succeeded, the entry being the one of the last such open; when the
    open failed the key stays absent, and it is absent again from the pruned
    ledger of any later run, which may select it. *)
Theorem C5_entry_iff_open_succeeded (E : env) (f : file) (i : nat) (p : PR) :
  paused (config_of E) = false →
  selected E f !! i = Some p →
  (∀ (acc : ledger) (s : state),
     (open_and_record p acc E s).1 =
     if (openTab (url p) E s).1
     then <[key p := stamped (clock E (reads s)) p]> acc else acc) ∧
  (if DRY_RUN E then tab_ok E i = true
   else outcomes (trace (run E f)) !! i = Some (url p, tab_ok E i)) ∧
  (is_Some (persisted (run E f) !! key p) ↔
   ∃ j q, selected E f !! j = Some q ∧ key q = key p ∧ tab_ok E j = true) ∧
  (tab_ok E i = true →
   (∀ j q, (i < j)%nat → selected E f !! j = Some q → key q = key p →
           tab_ok E j = false) →
   persisted (run E f) !! key p = Some (recorded E i p)) ∧
  ((∀ j q, selected E f !! j = Some q → key q = key p → tab_ok E j = false) →
   persisted (run E f) !! key p = None ∧
   ∀ E', is_new (pruned E' (NOTIFIED_FILE (run E f))) p = true).
Proof.
  intros Hp Hi. pose proof (selected_absent E f i p Hi) as Habsent.
  rewrite persisted_run by done. unfold final_ledger, recorded.
  split_and!.
  - intros acc s. by rewrite open_and_record_run, openTab_run.
  - destruct (DRY_RUN E) eqn:Hdry; [by apply tab_ok_dry|].
    by rewrite run_outcomes, list_lookup_imap, Hi.
  - rewrite record_from_is_Some, Habsent. split.
    + intros [[? [=]]|?]; done.
    + by right.
  - intros Hok Hlater. by apply record_from_last.
  - intros Hfail.
    assert (record_from E 0 2 (selected E f) (pruned E f) !! key p = None) as Hnone.
    { by rewrite record_from_none. }
    split; [done|]. intros E'. unfold is_new.
    rewrite pruned_subset; [done|].
    pose proof (persisted_run E f Hp) as Hsaved. unfold persisted in Hsaved.
    by rewrite Hsaved.
Qed.

(** C6, as the code has it.  The notification follows the selection, not the
    outcome of the opens: in a run that is not paused, one notification
    reporting the number of selected pull requests is sent exactly when at
    least one pull request was selected and [enableNotification] is true. *)
Theorem C6_notification_follows_selection (E : env) (f : file) :
  notifications (trace (run E f)) =
  (if negb (paused (config_of E)) && bool_decide (selected E f ≠ [])
      && enableNotification (config_of E)
   then [("PR Opener", pretty (length (selected E f)) +:+ "件の新しいPRがあります")]
   else []).
Proof. apply run_notifications. Qed.

(** C7, as the code has it.  The limit is passed through as configured.  A
    limit of zero selects nothing, so no tab is opened; a negative limit -k
    makes [slice(0, -k)] drop the last k of the new pull requests, so a real
    run launches the browser for n - k of n new pull requests, and for none
    only when n ≤ k. *)
Theorem C7_nonpositive_limit (E : env) (f : file) :
  maxTabsToOpen (config_of E) ≤ 0 →
  let new := filter (λ p, pruned E f !! key p = None) (fetched E) in
  let k := Z.to_nat (- maxTabsToOpen (config_of E)) in
  (∀ j m, CONFIG_FILE E = Some j → maxTabsToOpen_opt j = Some m →
          maxTabsToOpen (config_of E) = m) ∧
  (maxTabsToOpen (config_of E) = 0 →
   selected E f = [] ∧ launches (trace (run E f)) = []) ∧
  (maxTabsToOpen (config_of E) < 0 →
   selected E f = take (length new - k) new ∧
   (paused (config_of E) = false → DRY_RUN E = false →
    launches (trace (run E f)) = url <$> take (length new - k) new ∧
    length (launches (trace (run E f))) = (length new - k)%nat ∧
    (launches (trace (run E f)) = [] ↔ (length new ≤ k)%nat))).
Proof.
  intros Hm new k.
  assert (maxTabsToOpen (config_of E) = 0 → selected E f = []) as Hzero.
  { intros H0. unfold selected. rewrite H0, select_new_nonneg by done. apply take_0. }
  assert (maxTabsToOpen (config_of E) < 0 →
          selected E f = take (length new - k) new) as Hneg.
  { intros Hlt. unfold selected. by rewrite select_new_neg. }
  split_and!.
  - intros j m Hj Hmax. unfold config_of. rewrite Hj. simpl. by rewrite Hmax.
  - intros H0. rewrite run_launches, Hzero by done. by destruct (_ || _).
  - intros Hlt. split; [by apply Hneg|]. intros Hp Hdry.
    rewrite run_launches, Hp, Hdry, Hneg by done. simpl.
    assert (length (url <$> take (length new - k) new) = (length new - k)%nat) as Hlen.
    { rewrite length_fmap, length_take. lia. }
    split_and!; [done..|].
    split.
    + intros Hnil. rewrite Hnil in Hlen. simpl in Hlen. lia.
    + intros Hle. apply length_zero_iff_nil. lia.
Qed.

(** C8. In a dry run the browser is never launched, [openTab] reports
    success for every URL, and every selected pull request is recorded: the
    ledger persisted is the one a real run in the same world persists when
    every launch exits cleanly. *)
Theorem C8_dry_run_records_without_launching (E : env) (f : file) :
  DRY_RUN E = true →
  paused (config_of E) = false →
  launches (trace (run E f)) = [] ∧
  (∀ u s, (openTab u E s).1 = true ∧
          launches (trace (openTab u E s).2) = launches (trace s)) ∧
  (∀ p, p ∈ selected E f → is_Some (persisted (run E f) !! key p)) ∧
  (∀ i p, selected E f !! i = Some p →
          (∀ j q, (i < j)%nat → selected E f !! j = Some q → key q ≠ key p) →
          persisted (run E f) !! key p = Some (stamped (clock E (2 + i)) p)) ∧
  persisted (run E f) = persisted (run (browser_always_opens E) f).
Proof.
  intros Hdry Hp.
  assert (∀ n, tab_ok E n = true) as Hok by (intros n; by apply tab_ok_dry).
  rewrite persisted_run by done. unfold final_ledger.
  split_and!.
  - by rewrite run_launches, Hdry, orb_true_r.
  - intros u s. rewrite openTab_run. cbn [fst snd trace].
    split; [apply Hok|]. rewrite launches_app. unfold tab_events.
    rewrite Hdry. simpl. by rewrite app_nil_r.
  - intros p Hin. apply list_elem_of_lookup_1 in Hin as [i Hi].
    apply record_from_is_Some. right. exists i, p. by rewrite Hok.
  - intros i p Hi Hlater.
    rewrite (record_from_last E _ 0 2 _ i p Hi (Hok _)).
    + by rewrite count_ok_all.
    + intros j q Hlt Hj Hk. by destruct (Hlater j q).
  - rewrite (persisted_run (browser_always_opens E)) by done.
    unfold final_ledger.
    rewrite selected_always_opens.
    change (pruned (browser_always_opens E) f) with (pruned E f).
    apply record_from_ext; [|done].
    intros n. by rewrite Hok.
Qed.

(** C9. A run that is not paused and whose fetch yields no pull request,
    because [gh] printed an empty list or because it failed, writes the
    ledger once, and what it writes is the pruned ledger. *)
Theorem C9_empty_fetch_persists_pruned (E : env) (f : file) :
  paused (config_of E) = false →
  (gh_search_prs E (excludeDraft (config_of E)) = inr [] ∨
   ∃ message, gh_search_prs E (excludeDraft (config_of E)) = inl message) →
  fetched E = [] ∧
  NOTIFIED_FILE (run E f) = Content (pruned E f) ∧
  writes (trace (run E f)) = [pruned E f] ∧
  launches (trace (run E f)) = [].
Proof.
  intros Hp Hgh.
  assert (fetched E = []) as Hf.
  { unfold fetched, fetchPRs, bind, ask. by destruct Hgh as [->|[message ->]]. }
  destruct (run_saved E f Hp) as [Hfile Hwrites].
  rewrite final_ledger_nil in Hfile, Hwrites by done.
  split_and!; [done..|].
  rewrite run_launches, selected_nil by done. by destruct (_ || _).
Qed.

(** C10. The filter looks at the pruned ledger only.  When the fetch lists
    two pull requests with the same identity key, absent from the pruned
    ledger, both pass the filter, in their order; if the limit reaches the
    second, both are selected and a real run launches the browser for each;
    and when the open of the second succeeds, the entry persisted under the
    key is the one written for the second, whatever was written for the
    first. *)
Theorem C10_duplicates_are_both_opened (E : env) (f : file)
    (i j : nat) (p q : PR) :
  (i < j)%nat →
  fetched E !! i = Some p →
  fetched E !! j = Some q →
  key p = key q →
  pruned E f !! key p = None →
  let new := filter (λ x, pruned E f !! key x = None) (fetched E) in
  ∃ i' j',
    (i' < j')%nat ∧ new !! i' = Some p ∧ new !! j' = Some q ∧
    (Z.of_nat j' < maxTabsToOpen (config_of E) →
     selected E f !! i' = Some p ∧ selected E f !! j' = Some q ∧
     (paused (config_of E) = false →
      (DRY_RUN E = false →
       launches (trace (run E f)) !! i' = Some (url p) ∧
       launches (trace (run E f)) !! j' = Some (url q)) ∧
      (tab_ok E j' = true →
       (∀ n x, (j' < n)%nat → selected E f !! n = Some x → key x = key q →
               tab_ok E n = false) →
       persisted (run E f) !! key p = Some (recorded E j' q)))).
Proof.
  intros Hlt Hi Hj Hk Hnone new.
  destruct (filter_keeps_order (λ x, pruned E f !! key x = None)
              (fetched E) i j p q) as (i' & j' & Hlt' & Hi' & Hj');
    [done..| by rewrite <-Hk |].
  exists i', j'. split_and!; [done..|]. intros Hmax.
  assert (selected E f = take (Z.to_nat (maxTabsToOpen (config_of E))) new) as Hsel.
  { apply select_new_nonneg. lia. }
  assert (selected E f !! i' = Some p ∧ selected E f !! j' = Some q) as [Hsi Hsj].
  { rewrite Hsel, !lookup_take_lt by lia. done. }
  split_and!; [done..|]. intros Hp. split.
  - intros Hdry. rewrite run_launches, Hp, Hdry. simpl.
    rewrite !list_lookup_fmap, Hsi, Hsj. done.
  - intros Hok Hlater. rewrite persisted_run by done. unfold final_ledger, recorded.
    rewrite Hk. by apply record_from_last.
Qed.

End Claims.

(** * Further properties of the program *)

Section MoreFacts.
Context `{DateRuntime}.

Lemma is_recent_mono (c1 c2 : Z) (value : entry) :
  c1 ≤ c2 → is_recent c2 value = true → is_recent c1 value = true.
Proof.
  intros Hle. rewrite !is_recent_resolved. intros (t & Ht & Hlt).
  exists t. split; [done | lia].
Qed.

Lemma record_from_frame (E : env) (l : list PR) (k : string) :
  ∀ n r (acc : ledger),
    (∀ i p, l !! i = Some p → key p ≠ k) →
    record_from E n r l acc !! k = acc !! k.
Proof.
  intros n r acc Hother. apply record_from_none.
  intros i p Hi Hk. by destruct (Hother i p Hi).
Qed.

Lemma record_from_origin (E : env) (l : list PR) (k : string) (v : entry) :
  ∀ n r (acc : ledger),
    record_from E n r l acc !! k = Some v →
    acc !! k = Some v ∨
    ∃ i p, l !! i = Some p ∧ key p = k ∧ tab_ok E (n + i) = true ∧
           v = stamped (clock E (r + count_ok E n i)) p.
Proof.
  induction l as [|a l IH]; intros n r acc Hv; simpl in Hv; [by left|].
  destruct (tab_ok E n) eqn:Hok.
  - apply IH in Hv as [Hacc|(i & p & Hi & Hk & Hi_ok & ->)].
    + destruct (decide (key a = k)) as [Ha|Ha].
      * rewrite <-Ha, lookup_insert_eq in Hacc. injection Hacc as <-.
        right. exists 0%nat, a. rewrite Nat.add_0_r. simpl.
        by rewrite Nat.add_0_r.
      * rewrite lookup_insert_ne in Hacc by done. by left.
    + right. exists (S i), p. rewrite Nat.add_succ_r. simpl. rewrite Hok.
      split_and!; [done..|]. do 2 f_equal. lia.
  - apply IH in Hv as [Hacc|(i & p & Hi & Hk & Hi_ok & ->)]; [by left|].
    right. exists (S i), p. rewrite Nat.add_succ_r. simpl. by rewrite Hok.
Qed.

Lemma count_ok_le (E : env) (len : nat) : ∀ n, (count_ok E n len ≤ len)%nat.
Proof.
  induction len as [|len IH]; intros n; simpl; [done|].
  specialize (IH (S n)). destruct (tab_ok E n); lia.
Qed.

Lemma stamped_at (t : Z) (p : PR) : stamped t p !! "at" = Some (toISOString t).
Proof. unfold stamped. apply lookup_insert_eq. Qed.

Lemma resolved_stamped (t : Z) (p : PR) :
  toISOString t ≠ "" →
  resolved_timestamp (stamped t p) = Date_parse (toISOString t).
Proof.
  intros Hne. apply String.eqb_neq in Hne.
  unfold resolved_timestamp, js_or. rewrite stamped_at. simpl. rewrite Hne.
  simpl. by rewrite Hne.
Qed.

Lemma file_of_run (E : env) (f : file) :
  read_notified (NOTIFIED_FILE (run E f)) = persisted (run E f).
Proof. reflexivity. Qed.

(** The trace of a run that is not paused ends with the write of the ledger
    and one more line of log. *)
Lemma run_trace_end (E : env) (f : file) :
  paused (config_of E) = false →
  ∃ before line,
    trace (run E f) = before ++ [WriteNotified (final_ledger E f); Log line] ∧
    writes before = [] ∧ launches before = launches (trace (run E f)) ∧
    notifications before = notifications (trace (run E f)).
Proof.
  intros Hp. destruct (preamble_quiet E) as (_ & _ & _ & Hpre).
  destruct (fetched E) as [|p0 prs] eqn:Hf.
  - rewrite run_empty, final_ledger_nil by done. cbn [trace].
    exists (preamble E), "No review requests".
    rewrite launches_app, notifications_app. simpl. by rewrite !app_nil_r.
  - rewrite run_open by (rewrite ?Hf; done). cbn [trace].
    eexists (preamble E ++ [_] ++ loop_events E 0 (selected E f) ++ notify_events E f),
      "Done".
    rewrite <-!app_assoc. split; [done|].
    rewrite !launches_app, !notifications_app, !writes_app, Hpre.
    destruct (loop_events_quiet E (selected E f) 0) as [_ ->].
    destruct (notify_events_quiet E f) as (_ & _ & -> & _).
    simpl. by rewrite !app_nil_r.
Qed.

(** An entry stamped in one run is still in the pruned ledger of another
    run when the stamps read back as times after that run's cutoff. *)
Lemma opened_is_kept (E1 E2 : env) (f : file) (i : nat) (p : PR) :
  paused (config_of E1) = false →
  selected E1 f !! i = Some p →
  tab_ok E1 i = true →
  (∀ n, (2 ≤ n < 2 + length (selected E1 f))%nat →
        toISOString (clock E1 n) ≠ "" ∧
        ∃ t, Date_parse (toISOString (clock E1 n)) = Some t ∧
             clock E2 1 - notifiedRetentionDays (config_of E2) * (24 * 60 * 60 * 1000) < t) →
  is_Some (pruned E2 (NOTIFIED_FILE (run E1 f)) !! key p).
Proof.
  intros Hp Hi Hok Hfresh.
  rewrite pruned_lookup, file_of_run, persisted_run by done. unfold final_ledger.
  assert (is_Some (record_from E1 0 2 (selected E1 f) (pruned E1 f) !! key p))
    as [v Hv].
  { apply record_from_is_Some. right. by exists i, p. }
  rewrite Hv. simpl.
  apply record_from_origin in Hv as [Hold|(j & q & Hj & _ & _ & ->)].
  { apply selected_absent in Hi. congruence. }
  apply lookup_lt_Some in Hj. pose proof (count_ok_le E1 j 0) as Hle.
  destruct (Hfresh (2 + count_ok E1 0 j)%nat) as (Hne & t & Ht & Hlt); [lia|].
  assert (is_recent
            (clock E2 1 - notifiedRetentionDays (config_of E2) * 24 * 60 * 60 * 1000)
            (stamped (clock E1 (2 + count_ok E1 0 j)) q) = true) as ->; [|done].
  apply is_recent_resolved. exists t. rewrite resolved_stamped by done.
  split; [done | lia].
Qed.

Lemma filter_none {A} (P : A → Prop) `{!∀ x, Decision (P x)} (l : list A) :
  (∀ x, x ∈ l → ¬ P x) → filter P l = [].
Proof.
  induction l as [|a l IH]; intros Hnone; [done|].
  rewrite filter_cons_False by (apply Hnone; left).
  apply IH. intros x Hx. apply Hnone. by right.
Qed.

(** ** A run depends on the world through what it reads of it *)

Section Ext.
Variables E E' : env.
Hypothesis Hconfig : config_of E = config_of E'.
Hypothesis Hdry : DRY_RUN E = DRY_RUN E'.
Hypothesis Hgh :
  gh_search_prs E (excludeDraft (config_of E)) =
  gh_search_prs E' (excludeDraft (config_of E')).
Hypothesis Hclock : ∀ n, clock E n = clock E' n.
Hypothesis Hchrome : ∀ n, chrome E n = chrome E' n.

Lemma tab_ok_ext (n : nat) : tab_ok E n = tab_ok E' n.
Proof. unfold tab_ok. by rewrite Hdry, Hchrome. Qed.

Lemma fetched_ext : fetched E = fetched E'.
Proof.
  unfold fetched, fetchPRs, bind, ask. simpl. rewrite Hgh.
  by destruct (gh_search_prs E' _).
Qed.

Lemma fetch_events_ext : fetch_events E = fetch_events E'.
Proof. unfold fetch_events. by rewrite Hgh. Qed.

Lemma preamble_ext : preamble E = preamble E'.
Proof. unfold preamble. by rewrite Hclock, fetch_events_ext, fetched_ext. Qed.

Lemma pruned_ext (f : file) : pruned E f = pruned E' f.
Proof. unfold pruned. rewrite !cleanup_run. simpl. by rewrite Hclock, Hconfig. Qed.

Lemma selected_ext (f : file) : selected E f = selected E' f.
Proof. unfold selected. by rewrite pruned_ext, fetched_ext, Hconfig. Qed.

Lemma count_ok_ext (len : nat) : ∀ n, count_ok E n len = count_ok E' n len.
Proof.
  induction len as [|len IH]; intros n; simpl; [done|].
  by rewrite tab_ok_ext, IH.
Qed.

Lemma loop_events_ext (l : list PR) : ∀ n, loop_events E n l = loop_events E' n l.
Proof.
  induction l as [|p l IH]; intros n; simpl; [done|].
  unfold tab_events. by rewrite Hdry, Hchrome, IH.
Qed.

Lemma final_ledger_ext (f : file) : final_ledger E f = final_ledger E' f.
Proof.
  unfold final_ledger. rewrite selected_ext, pruned_ext.
  apply record_from_ext; [apply tab_ok_ext | apply Hclock].
Qed.

Lemma notify_events_ext (f : file) : notify_events E f = notify_events E' f.
Proof. unfold notify_events. by rewrite selected_ext, Hconfig. Qed.

Lemma run_ext (f : file) : run E f = run E' f.
Proof.
  destruct (paused (config_of E)) eqn:Hp.
  { rewrite (run_paused E) by done. rewrite Hconfig in Hp. by rewrite run_paused. }
  destruct (fetched E) as [|p0 prs] eqn:Hf.
  - rewrite (run_empty E) by done.
    rewrite Hconfig in Hp. rewrite fetched_ext in Hf.
    rewrite (run_empty E') by done. by rewrite pruned_ext, preamble_ext.
  - rewrite (run_open E) by (rewrite ?Hf; done).
    rewrite Hconfig in Hp. rewrite fetched_ext in Hf.
    rewrite (run_open E') by (rewrite ?Hf; done).
    by rewrite final_ledger_ext, count_ok_ext, selected_ext, Hdry, preamble_ext,
      loop_events_ext, notify_events_ext.
Qed.

End Ext.

Lemma with_defaults_saveConfig (c : config) : with_defaults (saveConfig c) = c.
Proof. by destruct c. Qed.

End MoreFacts.

(** ** Counting and ranking repositories *)

Section StatsFacts.
Implicit Types (l : list (string * nat)) (r : string).

Lemma count_of_bump r r' l :
  count_of r (bump r' l) = (count_of r l + if String.eqb r' r then 1 else 0)%nat.
Proof.
  induction l as [|[r0 n] l IH]; simpl.
  - by destruct (String.eqb r' r).
  - destruct (String.eqb_spec r0 r') as [->|Hne]; simpl.
    + destruct (String.eqb r' r); lia.
    + destruct (String.eqb_spec r0 r) as [->|Hne']; [|done].
      destruct (String.eqb_spec r' r); [congruence | lia].
Qed.

Lemma sum_bump r l : sum_list (bump r l).*2 = S (sum_list l.*2).
Proof.
  induction l as [|[r0 n] l IH]; csimpl; [done|].
  destruct (String.eqb r0 r); csimpl; [done|]. rewrite IH. lia.
Qed.

Lemma bump_positive r l :
  Forall (λ rc, 0 < rc.2)%nat l → Forall (λ rc, 0 < rc.2)%nat (bump r l).
Proof.
  induction 1 as [|[r0 n] l Hn Hl IH]; simpl.
  - repeat constructor.
  - destruct (String.eqb r0 r); constructor; simpl in *; (done || lia).
Qed.

Lemma bump_keys r l :
  (bump r l).*1 = if decide (r ∈ l.*1) then l.*1 else l.*1 ++ [r].
Proof.
  induction l as [|[r0 n] l IH]; [done|].
  cbn [bump]. rewrite (fmap_cons fst). cbn [fst].
  destruct (String.eqb_spec r0 r) as [->|Hne]; rewrite fmap_cons; cbn [fst].
  - rewrite decide_True; [done | left].
  - rewrite IH. destruct (decide (r ∈ l.*1)) as [Hin|Hin].
    + rewrite decide_True; [done | by right].
    + rewrite decide_False; [done|]. by intros [?|?]%elem_of_cons.
Qed.

Lemma bump_NoDup r l : NoDup l.*1 → NoDup (bump r l).*1.
Proof.
  intros Hl. rewrite bump_keys. destruct (decide (r ∈ l.*1)); [done|].
  apply NoDup_app. split_and!; [done | | apply NoDup_singleton].
  intros x Hx ->%list_elem_of_singleton. done.
Qed.

Lemma count_of_elem r n l : NoDup l.*1 → (r, n) ∈ l → count_of r l = n.
Proof.
  induction l as [|[r0 m] l IH]; intros Hnd Hin; [by apply elem_of_nil in Hin|].
  csimpl in *. apply NoDup_cons in Hnd as [Hr0 Hnd].
  apply elem_of_cons in Hin as [[= -> ->]|Hin].
  - by rewrite String.eqb_refl.
  - destruct (String.eqb_spec r0 r) as [->|_]; [|by apply IH].
    destruct Hr0. apply list_elem_of_fmap. by exists (r, n).
Qed.

Lemma count_of_found r l : count_of r l ≠ 0%nat → (r, count_of r l) ∈ l.
Proof.
  induction l as [|[r0 m] l IH]; simpl; [done|].
  destruct (String.eqb_spec r0 r) as [->|_]; [left | right; by apply IH].
Qed.

Lemma count_repos_snoc (entries : list (string * gmap string string)) e :
  count_repos (entries ++ [e]) = bump (before_hash e.1) (count_repos entries).
Proof. unfold count_repos. by rewrite foldl_snoc. Qed.

Lemma count_repos_count r (entries : list (string * gmap string string)) :
  count_of r (count_repos entries) =
  length (filter (λ e, before_hash e.1 = r) entries).
Proof.
  induction entries as [|e entries IH] using rev_ind; [done|].
  rewrite count_repos_snoc, count_of_bump, IH, filter_app, length_app, filter_cons.
  destruct (String.eqb_spec (before_hash e.1) r) as [Heq|Hne].
  - by rewrite decide_True.
  - by rewrite decide_False.
Qed.

Lemma count_repos_sum (entries : list (string * gmap string string)) :
  sum_list (count_repos entries).*2 = length entries.
Proof.
  induction entries as [|e entries IH] using rev_ind; [done|].
  rewrite count_repos_snoc, sum_bump, IH, length_app. simpl. lia.
Qed.

Lemma count_repos_positive (entries : list (string * gmap string string)) :
  Forall (λ rc, 0 < rc.2)%nat (count_repos entries).
Proof.
  induction entries as [|e entries IH] using rev_ind; [constructor|].
  rewrite count_repos_snoc. by apply bump_positive.
Qed.

Lemma count_repos_NoDup (entries : list (string * gmap string string)) :
  NoDup (count_repos entries).*1.
Proof.
  induction entries as [|e entries IH] using rev_ind; [constructor|].
  rewrite count_repos_snoc. by apply bump_NoDup.
Qed.

Lemma insert_desc_perm a l : insert_desc a l ≡ₚ a :: l.
Proof.
  induction l as [|b l IH]; simpl; [done|].
  destruct (a.2 <? b.2)%nat; [|done]. rewrite IH. apply Permutation_swap.
Qed.

Lemma sort_desc_perm l : sort_desc l ≡ₚ l.
Proof.
  induction l as [|a l IH]; simpl; [done|]. by rewrite insert_desc_perm, IH.
Qed.

Lemma insert_desc_sorted a l :
  StronglySorted (λ x y, y.2 ≤ x.2)%nat l →
  StronglySorted (λ x y, y.2 ≤ x.2)%nat (insert_desc a l).
Proof.
  induction 1 as [|b l Hl IH Hb]; simpl.
  - repeat constructor.
  - destruct (Nat.ltb_spec a.2 b.2).
    + constructor; [done|]. rewrite insert_desc_perm.
      constructor; [lia | done].
    + constructor; [by constructor|].
      constructor; [done|]. eapply Forall_impl; [exact Hb|]. simpl. lia.
Qed.

Lemma sort_desc_sorted l : StronglySorted (λ x y, y.2 ≤ x.2)%nat (sort_desc l).
Proof.
  induction l as [|a l IH]; simpl; [constructor | by apply insert_desc_sorted].
Qed.

Lemma insert_desc_filter (c : nat) a l :
  filter (λ x, x.2 = c) (insert_desc a l) = filter (λ x, x.2 = c) (a :: l).
Proof.
  induction l as [|b l IH]; simpl; [done|].
  destruct (Nat.ltb_spec a.2 b.2) as [Hlt|Hge]; [|done].
  rewrite (filter_cons _ b), IH, !(filter_cons _ a), (filter_cons _ b).
  destruct (decide (a.2 = c)), (decide (b.2 = c)); (done || lia).
Qed.

Lemma sort_desc_stable (c : nat) l :
  filter (λ x, x.2 = c) (sort_desc l) = filter (λ x, x.2 = c) l.
Proof.
  induction l as [|a l IH]; simpl; [done|].
  by rewrite insert_desc_filter, !filter_cons, IH.
Qed.

Lemma count_repos_keys r (entries : list (string * gmap string string)) :
  r ∈ (count_repos entries).*1 ↔ r ∈ (λ e, before_hash e.1) <$> entries.
Proof.
  induction entries as [|e entries IH] using rev_ind.
  - split; intros Hin; by apply elem_of_nil in Hin.
  - rewrite count_repos_snoc, bump_keys, fmap_app, elem_of_app. simpl.
    rewrite list_elem_of_singleton, <-IH.
    destruct (decide (before_hash e.1 ∈ (count_repos entries).*1)) as [Hin|Hin].
    + split; [by left | by intros [?| ->]].
    + by rewrite elem_of_app, list_elem_of_singleton.
Qed.

(** The repositories are counted in the order of their first mention. *)
Lemma count_repos_order (entries : list (string * gmap string string)) :
  ∀ i j ra rb,
    (i < j)%nat →
    (count_repos entries).*1 !! i = Some ra →
    (count_repos entries).*1 !! j = Some rb →
    ∃ i', ((λ e, before_hash e.1) <$> entries) !! i' = Some ra ∧
          ∀ j', (j' ≤ i')%nat → ((λ e, before_hash e.1) <$> entries) !! j' ≠ Some rb.
Proof.
  induction entries as [|e entries IH] using rev_ind; intros i j ra rb Hlt Hi Hj;
    [done|].
  rewrite fmap_app. simpl.
  assert (∀ i', ((λ e, before_hash e.1) <$> entries) !! i' = Some ra →
                ∀ j', (j' ≤ i')%nat →
                      (((λ e, before_hash e.1) <$> entries) ++ [before_hash e.1]) !! j' =
                      ((λ e, before_hash e.1) <$> entries) !! j') as Hsame.
  { intros i' Hi' j' Hle. apply lookup_app_l.
    apply lookup_lt_Some in Hi'. lia. }
  assert ((i < j)%nat ∧ (count_repos entries).*1 !! i = Some ra ∧
          (count_repos entries).*1 !! j = Some rb →
          ∃ i', (((λ e, before_hash e.1) <$> entries) ++ [before_hash e.1]) !! i' = Some ra ∧
                ∀ j', (j' ≤ i')%nat →
                      (((λ e, before_hash e.1) <$> entries) ++ [before_hash e.1]) !! j'
                      ≠ Some rb) as Hold.
  { intros (_ & Hi0 & Hj0). destruct (IH i j ra rb Hlt Hi0 Hj0) as (i' & Hi' & Hno).
    exists i'. split.
    - by rewrite (Hsame i' Hi' i').
    - intros j' Hle. rewrite (Hsame i' Hi' j' Hle). by apply Hno. }
  rewrite count_repos_snoc, bump_keys in Hi, Hj.
  destruct (decide (before_hash e.1 ∈ (count_repos entries).*1)) as [Hin|Hin];
    [by apply Hold|].
  destruct (decide (j < length (count_repos entries).*1)%nat) as [Hjl|Hjl].
  { rewrite lookup_app_l in Hi, Hj by lia. by apply Hold. }
  rewrite lookup_app_l in Hi.
  2:{ apply lookup_lt_Some in Hj. rewrite length_app in Hj. simpl in Hj. lia. }
  assert (rb = before_hash e.1) as ->.
  { rewrite lookup_app_r in Hj by lia.
    apply list_elem_of_lookup_2, list_elem_of_singleton in Hj. done. }
  assert (ra ∈ (λ e, before_hash e.1) <$> entries) as [i' Hi']%list_elem_of_lookup_1.
  { apply count_repos_keys. by apply list_elem_of_lookup_2 in Hi. }
  exists i'. split.
  - by rewrite (Hsame i' Hi' i').
  - intros j' Hle. rewrite (Hsame i' Hi' j' Hle). intros Hj'.
    apply Hin, count_repos_keys. by apply list_elem_of_lookup_2 in Hj'.
Qed.

Lemma filter_reflects_order {A} (P : A → Prop) `{!∀ x, Decision (P x)}
    (l : list A) (i j : nat) (x y : A) :
  (i < j)%nat → filter P l !! i = Some x → filter P l !! j = Some y →
  ∃ i' j', (i' < j')%nat ∧ l !! i' = Some x ∧ l !! j' = Some y.
Proof.
  revert i j. induction l as [|a l IH]; intros i j Hlt Hi Hj; [done|].
  rewrite filter_cons in Hi, Hj. destruct (decide (P a)).
  - destruct j as [|j]; [lia|]. simpl in Hj. destruct i as [|i]; simpl in Hi.
    + injection Hi as ->. apply list_elem_of_lookup_2, list_elem_of_filter in Hj as [_ Hin].
      apply list_elem_of_lookup_1 in Hin as [j' Hj'].
      exists 0%nat, (S j'). split; [lia | done].
    + destruct (IH i j) as (i' & j' & ? & ? & ?); [lia | done..|].
      exists (S i'), (S j'). split; [lia | done].
  - destruct (IH i j) as (i' & j' & ? & ? & ?); [done..|].
    exists (S i'), (S j'). split; [lia | done].
Qed.

End StatsFacts.

Section PruneOfList.
Context `{DateRuntime}.

(** Pruning the ledger a list of entries stands for is filtering the list. *)
Lemma cleanup_of_list (entries : list (string * gmap string string)) (R : Z)
    (E : env) (s : state) :
  NoDup entries.*1 →
  (cleanupOldNotified (list_to_map entries) R E s).1 =
  list_to_map
    (filter (λ e, is_recent (clock E (reads s) - R * 24 * 60 * 60 * 1000) e.2) entries).
Proof.
  intros Hnd. rewrite cleanup_run. cbn [fst]. apply map_eq. intros k.
  rewrite prune_lookup. apply option_eq. intros v.
  assert (NoDup (filter (λ e, is_recent
            (clock E (reads s) - R * 24 * 60 * 60 * 1000) e.2) entries).*1) as Hnd'.
  { eapply sublist_NoDup; [exact Hnd|]. apply fmap_sublist, sublist_filter. }
  rewrite <-elem_of_list_to_map, list_elem_of_filter by done. simpl.
  rewrite elem_of_list_to_map by done.
  destruct (list_to_map entries !! k) as [w|]; simpl.
  - destruct (is_recent _ w) eqn:Hw.
    + split; [intros [= <-]; by rewrite Hw | by intros [_ ?]].
    + split; [done|]. intros [Hv [= <-]]. rewrite Hw in Hv. done.
  - split; [done | by intros [_ ?]].
Qed.

End PruneOfList.

(** ** Escaping *)

Lemma escapeAS_cons (a : ascii) (s : string) :
  escapeAS (String a s) =
  if Ascii.eqb a backslash then String backslash (String backslash (escapeAS s))
  else if Ascii.eqb a dquote then String backslash (String dquote (escapeAS s))
  else String a (escapeAS s).
Proof.
  unfold escapeAS. cbn [replace_all].
  destruct (Ascii.eqb_spec a backslash) as [->|Hb]; [done|].
  simpl. by destruct (Ascii.eqb a dquote).
Qed.

Lemma read_literal_escapeAS (s rest : string) :
  read_literal (escapeAS s +:+ String dquote rest) = Some (s, rest).
Proof.
  induction s as [|a s IH]; [done|].
  rewrite escapeAS_cons.
  destruct (Ascii.eqb_spec a backslash) as [->|Hb].
  { simpl. by rewrite IH. }
  destruct (Ascii.eqb_spec a dquote) as [->|Hq].
  { simpl. by rewrite IH. }
  simpl. apply Ascii.eqb_neq in Hb, Hq. by rewrite Hq, Hb, IH.
Qed.

Lemma quote_sh_cons (a : ascii) (s : string) :
  quote_sh (String a s) =
  if Ascii.eqb a squote
  then String squote (String backslash (String squote (String squote (quote_sh s))))
  else String a (quote_sh s).
Proof. unfold quote_sh. cbn [replace_all]. by destruct (Ascii.eqb a squote). Qed.

Lemma sh_quoted_quote_sh (s : string) :
  sh_quoted (quote_sh s +:+ String squote EmptyString) = Some s.
Proof.
  induction s as [|a s IH]; [done|].
  rewrite quote_sh_cons.
  destruct (Ascii.eqb_spec a squote) as [->|Hq].
  - simpl. by rewrite IH.
  - simpl. apply Ascii.eqb_neq in Hq. by rewrite Hq, IH.
Qed.

Section Extras.
Context `{DateRuntime}.

(** X1. Pruning composes along the cutoff: a prune followed by a prune whose
    cutoff (its clock reading minus its retention) is not earlier gives what
    the second prune alone gives.  Later runs, or a shorter retention, lose
    nothing by the earlier prunes. *)
Theorem X1_prune_then_prune_later (notified : ledger) (R1 R2 : Z)
    (E : env) (s1 s2 : state) :
  clock E (reads s1) - R1 * (24 * 60 * 60 * 1000)
    ≤ clock E (reads s2) - R2 * (24 * 60 * 60 * 1000) →
  (cleanupOldNotified (cleanupOldNotified notified R1 E s1).1 R2 E s2).1 =
  (cleanupOldNotified notified R2 E s2).1.
Proof.
  intros Hle. rewrite !cleanup_run. cbn [fst]. apply map_eq. intros k.
  rewrite !prune_lookup.
  destruct (notified !! k) as [v|]; simpl; [|done].
  pose proof (is_recent_mono (clock E (reads s1) - R1 * 24 * 60 * 60 * 1000)
                (clock E (reads s2) - R2 * 24 * 60 * 60 * 1000) v ltac:(lia)) as Hmono.
  destruct (is_recent (clock E (reads s2) - _) v) eqn:H2.
  - rewrite Hmono by done. simpl. by rewrite H2.
  - destruct (is_recent (clock E (reads s1) - _) v); simpl; [by rewrite H2 | done].
Qed.

(** X2. Pruning only removes: the result is a part of the ledger given, and
    a longer retention keeps at least what a shorter one keeps. *)
Theorem X2_prune_monotone (notified : ledger) (R R' : Z) (E : env) (s : state) :
  R ≤ R' →
  (cleanupOldNotified notified R E s).1 ⊆ (cleanupOldNotified notified R' E s).1 ∧
  (cleanupOldNotified notified R' E s).1 ⊆ notified.
Proof.
  intros Hle. rewrite !cleanup_run. cbn [fst].
  split; apply map_subseteq_spec; intros k v; rewrite !prune_lookup;
    destruct (notified !! k) as [w|]; simpl; try done.
  - pose proof (is_recent_mono (clock E (reads s) - R' * 24 * 60 * 60 * 1000)
                  (clock E (reads s) - R * 24 * 60 * 60 * 1000) w ltac:(lia)) as Hmono.
    destruct (is_recent (_ - R * _ * _ * _ * _) w) eqn:Hr; [|done].
    intros [= <-]. by rewrite Hmono.
  - by destruct (is_recent _ w).
Qed.

(** X3. A retention of zero or less forgets everything that is not in the
    future: in a run, no entry whose time is at or before the clock reading
    of the prune survives, so the pull request of every such entry counts as
    new again. *)
Theorem X3_no_retention_forgets (E : env) (f : file) (k : string)
    (value : entry) (t : Z) :
  notifiedRetentionDays (config_of E) ≤ 0 →
  read_notified f !! k = Some value →
  resolved_timestamp value = Some t →
  t ≤ clock E 1 →
  pruned E f !! k = None ∧ ∀ p, key p = k → is_new (pruned E f) p = true.
Proof.
  intros HR Hk Ht Hpast.
  assert (pruned E f !! k = None) as Hnone.
  { rewrite pruned_lookup, Hk. simpl.
    destruct (is_recent _ value) eqn:Hr; [|done].
    apply is_recent_resolved in Hr as (t' & Ht' & Hlt).
    rewrite Ht in Ht'. injection Ht' as <-. nia. }
  split; [done|]. intros p <-. unfold is_new. by rewrite Hnone.
Qed.

(** X4. The field [at] wins over [notifiedAt] whenever it is a non-empty
    string, also when it is not a date: such an entry is dropped whatever
    [notifiedAt] holds.  An [at] that is missing or empty leaves the
    decision to [notifiedAt]. *)
Theorem X4_at_takes_precedence (notified : ledger) (R : Z) (E : env) (s : state)
    (k : string) (value : entry) :
  notified !! k = Some value →
  let cleaned := (cleanupOldNotified notified R E s).1 in
  let cutoff := clock E (reads s) - R * (24 * 60 * 60 * 1000) in
  (∀ a, value !! "at" = Some a → a ≠ "" → Date_parse a = None →
        cleaned !! k = None) ∧
  (value !! "at" = None ∨ value !! "at" = Some "" →
   (cleaned !! k = Some value ↔
    ∃ a t, value !! "notifiedAt" = Some a ∧ a ≠ "" ∧ Date_parse a = Some t ∧
           cutoff < t)).
Proof.
  intros Hk cleaned cutoff. subst cleaned. rewrite cleanup_run. cbn [fst].
  rewrite prune_lookup, Hk. simpl.
  replace (clock E (reads s) - R * 24 * 60 * 60 * 1000) with cutoff
    by (subst cutoff; lia).
  split.
  - intros a Ha Hne Hbad. apply String.eqb_neq in Hne.
    unfold is_recent, js_or. rewrite Ha. simpl. rewrite Hne. simpl.
    by rewrite Hbad, andb_false_r.
  - intros Hat.
    assert (js_or (value !! "at") (value !! "notifiedAt") = value !! "notifiedAt")
      as Hor by (by destruct Hat as [->| ->]).
    unfold is_recent. rewrite Hor.
    destruct (value !! "notifiedAt") as [a|]; simpl.
    + destruct (String.eqb_spec a "") as [->|Hne]; simpl.
      * split; [done|]. by intros (a & t & [= <-] & ? & _).
      * destruct (Date_parse a) as [t|] eqn:Hp.
        -- destruct (Z.ltb_spec cutoff t).
           ++ split; [|done]. intros _. by exists a, t.
           ++ split; [done|]. intros (a' & t' & [= <-] & _ & Hp' & ?).
              rewrite Hp in Hp'. injection Hp' as <-. lia.
        -- split; [done|]. intros (a' & t' & [= <-] & _ & Hp' & _). congruence.
    + split; [done|]. by intros (a & t & ? & _).
Qed.

(** X5. A paused run does nothing but log that it is paused: the ledger
    file is left as it is (expired entries included), the clock is not read,
    nothing is fetched, launched, notified or written. *)
Theorem X5_paused_run_does_nothing (E : env) (f : file) :
  paused (config_of E) = true →
  run E f = {| NOTIFIED_FILE := f; reads := 0; spawned := 0; trace := [Log "Paused"] |} ∧
  launches (trace (run E f)) = [] ∧ notifications (trace (run E f)) = [] ∧
  writes (trace (run E f)) = [].
Proof. intros Hp. by rewrite run_paused. Qed.

(** X6. A run that is not paused writes [notified.json] exactly once, as its
    last effect before the closing line of the log: every launch and the
    notification come before the write, and what is written is what is on
    disk afterwards. *)
Theorem X6_one_write_at_the_end (E : env) (f : file) :
  paused (config_of E) = false →
  ∃ before line,
    trace (run E f) = before ++ [WriteNotified (persisted (run E f)); Log line] ∧
    writes before = [] ∧
    launches before = launches (trace (run E f)) ∧
    notifications before = notifications (trace (run E f)) ∧
    NOTIFIED_FILE (run E f) = Content (persisted (run E f)).
Proof.
  intros Hp. rewrite persisted_run by done.
  destruct (run_trace_end E f Hp) as (before & line & Htr & Hw & Hl & Hn).
  exists before, line. split_and!; try done.
  by destruct (run_saved E f Hp) as [-> _].
Qed.

(** X7. A run keeps every entry that has not expired exactly as it was, and
    adds nothing but the entries of the pull requests it opened: an entry of
    the persisted ledger is either an unexpired entry of the file, or the
    entry [{ at, title }] stamped in this run for a selected pull request
    whose open succeeded. *)
Theorem X7_run_keeps_unexpired_entries (E : env) (f : file) :
  paused (config_of E) = false →
  (∀ k v, pruned E f !! k = Some v → persisted (run E f) !! k = Some v) ∧
  (∀ k v, persisted (run E f) !! k = Some v →
          pruned E f !! k = Some v ∨
          ∃ i p, selected E f !! i = Some p ∧ key p = k ∧ tab_ok E i = true ∧
                 v = recorded E i p).
Proof.
  intros Hp. rewrite persisted_run by done. unfold final_ledger. split.
  - intros k v Hk. rewrite record_from_frame; [done|].
    intros i p Hi Hkey. apply selected_absent in Hi. congruence.
  - intros k v Hv. by apply record_from_origin in Hv.
Qed.

(** X8. What one run opened, the next run does not open again.  If the open
    of a selected pull request succeeded in a run, and the times stamped in
    that run read back as times after the cutoff of a second run, then no
    pull request with that identity key is selected in the second run,
    whatever it fetches and whatever its title is by then. *)
Theorem X8_next_run_does_not_reopen (E1 E2 : env) (f : file) (i : nat) (p : PR) :
  paused (config_of E1) = false →
  selected E1 f !! i = Some p →
  tab_ok E1 i = true →
  (∀ n, (2 ≤ n < 2 + length (selected E1 f))%nat →
        toISOString (clock E1 n) ≠ "" ∧
        ∃ t, Date_parse (toISOString (clock E1 n)) = Some t ∧
             clock E2 1 - notifiedRetentionDays (config_of E2) * (24 * 60 * 60 * 1000) < t) →
  is_Some (pruned E2 (NOTIFIED_FILE (run E1 f)) !! key p) ∧
  ∀ q, key q = key p → q ∉ selected E2 (NOTIFIED_FILE (run E1 f)).
Proof.
  intros Hp Hi Hok Hfresh.
  pose proof (opened_is_kept E1 E2 f i p Hp Hi Hok Hfresh) as Hin.
  split; [done|]. intros q Hk Hsel. apply select_new_elem in Hsel as [_ Hnone].
  rewrite Hk in Hnone. destruct Hin as [v Hv]. congruence.
Qed.

(** X9. Successive runs work through the fetch in its order.  When none of
    the fetched pull requests is in the ledger, their keys differ, the first
    M opens of a run succeed, and a second run with the same limit fetches
    the same list while the stamps of the first are still recent, the first
    run selects the first M of the fetch and the second selects the M that
    follow. *)
Theorem X9_next_run_takes_the_next (E1 E2 : env) (f : file) :
  let M := Z.to_nat (maxTabsToOpen (config_of E1)) in
  paused (config_of E1) = false →
  0 ≤ maxTabsToOpen (config_of E1) →
  maxTabsToOpen (config_of E2) = maxTabsToOpen (config_of E1) →
  fetched E2 = fetched E1 →
  NoDup (key <$> fetched E1) →
  (∀ p, p ∈ fetched E1 → read_notified f !! key p = None) →
  (∀ n, (n < M)%nat → tab_ok E1 n = true) →
  (∀ n, (2 ≤ n < 2 + M)%nat →
        toISOString (clock E1 n) ≠ "" ∧
        ∃ t, Date_parse (toISOString (clock E1 n)) = Some t ∧
             clock E2 1 - notifiedRetentionDays (config_of E2) * (24 * 60 * 60 * 1000) < t) →
  selected E1 f = take M (fetched E1) ∧
  selected E2 (NOTIFIED_FILE (run E1 f)) = take M (drop M (fetched E1)).
Proof.
  intros M Hp HM HM2 Hfetch Hnodup Hnew Hok Hfresh.
  assert (selected E1 f = take M (fetched E1)) as Hsel1.
  { unfold selected. rewrite select_new_nonneg by done. f_equal.
    apply filter_all. intros p Hin. by apply pruned_subset, Hnew. }
  split; [done|].
  unfold selected. rewrite HM2, Hfetch, select_new_nonneg by done. f_equal.
  rewrite <-(take_drop M (fetched E1)) at 1. rewrite filter_app.
  rewrite (filter_none _ (take M (fetched E1))).
  - rewrite filter_all; [done|].
    intros x Hx. apply list_elem_of_lookup_1 in Hx as [j Hj].
    rewrite lookup_drop in Hj.
    apply pruned_subset. rewrite file_of_run, persisted_run by done.
    unfold final_ledger. rewrite record_from_frame.
    { apply pruned_subset, Hnew. by apply list_elem_of_lookup_2 in Hj. }
    intros i p Hi Hk. rewrite Hsel1 in Hi.
    apply lookup_take_Some in Hi as [Hi Hlt].
    assert (i = (M + j)%nat); [|lia].
    apply (NoDup_lookup (key <$> fetched E1) i (M + j)%nat (key p)); [done|..].
    + by rewrite list_lookup_fmap, Hi.
    + rewrite list_lookup_fmap, Hj. simpl. by rewrite Hk.
  - intros x Hx. apply elem_of_take in Hx as (i & Hi & Hlt).
    assert (selected E1 f !! i = Some x) as Hsel.
    { rewrite Hsel1. by rewrite lookup_take_lt. }
    destruct (opened_is_kept E1 E2 f i x Hp Hsel (Hok i Hlt)) as [v Hv].
    + intros n Hn. apply Hfresh. rewrite Hsel1, length_take in Hn. lia.
    + congruence.
Qed.


(** X11. [pause] and [resume] change the pause flag and nothing else of the
    effective configuration, whatever [config.json] held (nothing
    included); they write every field, so the file is complete afterwards;
    doing the same command again changes nothing; and [status] then reports
    the flag without writing. *)
Theorem X11_pause_resume_set_the_flag (cmd : string) (CONFIG : option config_json) :
  cmd = "pause" ∨ cmd = "resume" →
  let before := with_defaults CONFIG in
  let written := (handleCommand cmd CONFIG).1 in
  let after := with_defaults written in
  paused after = bool_decide (cmd = "pause") ∧
  maxTabsToOpen after = maxTabsToOpen before ∧
  excludeDraft after = excludeDraft before ∧
  notifiedRetentionDays after = notifiedRetentionDays before ∧
  enableNotification after = enableNotification before ∧
  written = saveConfig after ∧
  handleCommand cmd written = handleCommand cmd CONFIG ∧
  handleCommand "status" written =
    (written, [if bool_decide (cmd = "pause") then "⏸ Paused" else "▶ Active"]).
Proof.
  intros [-> | ->]; cbv zeta; unfold handleCommand; simpl;
    rewrite ?with_defaults_saveConfig; simpl; done.
Qed.

(** X12. [pause] stops the runs and [resume] brings them back.  With the
    file [pause] leaves, a run does nothing but log that it is paused,
    whatever [config.json] held before and whatever the world is.  With the
    file [resume] leaves after that, a run of a configuration that was not
    paused does exactly what it did with the file before the two
    commands. *)
Theorem X12_pause_stops_resume_restores (E : env) (f : file) :
  paused (config_of E) = false →
  let stopped := (handleCommand "pause" (CONFIG_FILE E)).1 in
  let restored := (handleCommand "resume" stopped).1 in
  run (with_config stopped E) f =
    {| NOTIFIED_FILE := f; reads := 0; spawned := 0; trace := [Log "Paused"] |} ∧
  with_defaults restored = config_of E ∧
  run (with_config restored E) f = run E f.
Proof.
  intros Hp stopped restored.
  assert (with_defaults restored = config_of E) as Hsame.
  { subst restored stopped. unfold config_of in *.
    destruct (CONFIG_FILE E) as [j|]; simpl in *; [by rewrite Hp | done]. }
  split_and!; [by apply run_paused | done | by apply run_ext].
Qed.

(** X13. [handleStats] counts every entry once, under the part of its key
    before the first ['#']: the repositories of [repoCounts] are distinct, the
    count of each is the number of entries with that repository, no count is
    zero, and the counts add up to the total. *)
Theorem X13_repo_counts (entries : list (string * gmap string string)) :
  NoDup (count_repos entries).*1 ∧
  (∀ r n, (r, n) ∈ count_repos entries ↔
          n = length (filter (λ e, before_hash e.1 = r) entries) ∧ (0 < n)%nat) ∧
  sum_list (count_repos entries).*2 = length entries.
Proof.
  split_and!; [apply count_repos_NoDup | | apply count_repos_sum].
  intros r n. rewrite <-count_repos_count. split.
  - intros Hin. split.
    + symmetry. apply count_of_elem; [apply count_repos_NoDup | done].
    + pose proof (count_repos_positive entries) as Hpos.
      rewrite Forall_forall in Hpos. by apply (Hpos (r, n)).
  - intros [-> Hpos]. apply count_of_found. lia.
Qed.

(** X14. The ranking lists the three most frequent repositories, most
    frequent first (all of them when there are fewer): it has min(3, number
    of repositories) rows taken from [repoCounts], their counts do not
    increase down the list, no repository left out has a larger count than a
    listed one, and it is empty exactly when the ledger is. *)
Theorem X14_top_three (entries : list (string * gmap string string)) :
  let all := count_repos entries in
  let top := topRepos entries in
  length top = (3 `min` length all)%nat ∧
  (∀ rc, rc ∈ top → rc ∈ all) ∧
  StronglySorted (λ x y, y.2 ≤ x.2)%nat top ∧
  (∀ a b, a ∈ top → b ∈ all → b ∉ top → (b.2 ≤ a.2)%nat) ∧
  (top = [] ↔ entries = []).
Proof.
  intros all top.
  assert (top = take 3 (sort_desc all)) as Htop.
  { subst top. unfold topRepos. by rewrite slice_0_nonneg. }
  pose proof (sort_desc_sorted all) as Hsorted.
  rewrite <-(take_drop 3 (sort_desc all)), <-Htop in Hsorted.
  assert (length top = (3 `min` length all)%nat) as Hlen.
  { rewrite Htop, length_take. by rewrite (Permutation_length (sort_desc_perm all)). }
  split_and!.
  - done.
  - intros rc Hin. rewrite Htop in Hin.
    apply elem_of_take in Hin as (i & Hi & _).
    rewrite <-(sort_desc_perm all). by apply list_elem_of_lookup_2 in Hi.
  - by apply StronglySorted_app_1_l in Hsorted.
  - intros a b Ha Hb Hnot.
    apply (StronglySorted_app_1_elem_of _ _ _ a b Hsorted Ha).
    rewrite <-(sort_desc_perm all), <-(take_drop 3 (sort_desc all)), <-Htop in Hb.
    by apply elem_of_app in Hb as [?|?].
  - pose proof (count_repos_sum entries) as Hsum. fold all in Hsum.
    pose proof (count_repos_positive entries) as Hpos. fold all in Hpos.
    split.
    + intros Hnil. rewrite Hnil in Hlen. change (length []) with 0%nat in Hlen.
      assert (length all = 0%nat) as Hall%length_zero_iff_nil by lia.
      rewrite Hall in Hsum. simpl in Hsum. by apply length_zero_iff_nil.
    + intros ->. by apply length_zero_iff_nil.
Qed.

(** X15. Repositories with the same count are ranked in the order in which
    the ledger first mentions them: when one is listed above another with an
    equal count, it occurs in the ledger before any entry of the other. *)
Theorem X15_ties_keep_first_mention (entries : list (string * gmap string string))
    (i j : nat) (a b : string * nat) :
  (i < j)%nat →
  topRepos entries !! i = Some a →
  topRepos entries !! j = Some b →
  a.2 = b.2 →
  ∃ i', ((λ e, before_hash e.1) <$> entries) !! i' = Some a.1 ∧
        ∀ j', (j' ≤ i')%nat → ((λ e, before_hash e.1) <$> entries) !! j' ≠ Some b.1.
Proof.
  intros Hlt Hi Hj Hcount.
  unfold topRepos in Hi, Hj. rewrite slice_0_nonneg in Hi, Hj by done.
  apply lookup_take_Some in Hi as [Hi _]. apply lookup_take_Some in Hj as [Hj _].
  destruct (filter_keeps_order (λ x, x.2 = a.2) _ i j a b Hlt Hi Hj)
    as (i1 & j1 & Hlt1 & Hi1 & Hj1); [done..|].
  rewrite sort_desc_stable in Hi1, Hj1.
  destruct (filter_reflects_order _ _ i1 j1 a b Hlt1 Hi1 Hj1)
    as (i2 & j2 & Hlt2 & Hi2 & Hj2).
  apply (count_repos_order entries i2 j2); [done|..].
  - by rewrite list_lookup_fmap, Hi2.
  - by rewrite list_lookup_fmap, Hj2.
Qed.

(** X16. The line "Last 7 days" counts the entries a prune with a retention
    of seven days would keep at the same reading of the clock, and "Total"
    counts the entries of the ledger; so the first never exceeds the
    second. *)
Theorem X16_last_seven_days_is_a_prune (entries : list (string * gmap string string))
    (E : env) (s : state) :
  NoDup entries.*1 →
  let now := clock E (reads s) in
  length (recent_entries entries now) =
    size (cleanupOldNotified (list_to_map entries) 7 E s).1 ∧
  length entries = size (list_to_map entries : gmap string (gmap string string)) ∧
  (length (recent_entries entries now) ≤ length entries)%nat ∧
  handleStats entries now !! 2%nat = Some ("Total PRs notified: " +:+ pretty (length entries)) ∧
  handleStats entries now !! 3%nat =
    Some ("Last 7 days: " +:+ pretty (length (recent_entries entries now))).
Proof.
  intros Hnd now. split_and!; [| |apply length_filter|done..].
  - rewrite cleanup_of_list by done. unfold recent_entries.
    rewrite map_size_list_to_map; [done|].
    eapply sublist_NoDup; [exact Hnd|]. apply fmap_sublist, sublist_filter.
  - by rewrite map_size_list_to_map.
Qed.

(** X17. What [escapeAS] makes of a text reads back as that text: put
    between double quotes, it is one AppleScript string literal that ends at
    the closing quote and whose text is the original, so distinct texts get
    distinct escapes and no character of a message or title can end the
    literal early.  The script of [sendNotification] thus reads as
    [display notification <message> with title <title> sound name "Glass"]. *)
Theorem X17_escapeAS_reads_back (title message : string) :
  (∀ s rest, read_literal (escapeAS s +:+ String dquote rest) = Some (s, rest)) ∧
  (∀ s1 s2, escapeAS s1 = escapeAS s2 → s1 = s2) ∧
  ∃ l1 l2,
    notification_script title message = "display notification " +:+ String dquote l1 ∧
    read_literal l1 = Some (message, " with title " +:+ String dquote l2) ∧
    read_literal l2 =
      Some (title, " sound name " +:+ String dquote ("Glass" +:+ String dquote EmptyString)).
Proof.
  split_and!.
  - apply read_literal_escapeAS.
  - intros s1 s2 Heq.
    pose proof (read_literal_escapeAS s1 EmptyString) as H1.
    rewrite Heq, read_literal_escapeAS in H1. congruence.
  - eexists (escapeAS message +:+ String dquote _), (escapeAS title +:+ String dquote _).
    split_and!; [reflexivity | apply read_literal_escapeAS..].
Qed.

(** X18. The command line of [sendNotification] is [osascript -e] followed by
    one shell word, and that word, read as the shell reads quoted text, is
    the script, whatever single quotes the script contains; distinct scripts
    give distinct words. *)
Theorem X18_command_carries_the_script (title message : string) :
  (∀ script,
     sh_bare (String squote (quote_sh script) +:+ String squote EmptyString)
     = Some script) ∧
  (∀ s1 s2, quote_sh s1 = quote_sh s2 → s1 = s2) ∧
  ∃ word,
    osascript_command title message = "osascript -e " +:+ word ∧
    sh_bare word = Some (notification_script title message).
Proof.
  split_and!.
  - intros script. apply sh_quoted_quote_sh.
  - intros s1 s2 Heq. pose proof (sh_quoted_quote_sh s1) as H1.
    rewrite Heq, sh_quoted_quote_sh in H1. congruence.
  - eexists. split; [reflexivity|].
    exact (sh_quoted_quote_sh (notification_script title message)).
Qed.

(** X19. A failure of [gh] does not stop the run: it is logged as an error
    and the run goes on as with an empty fetch.  The whole run is then the
    start line, the error line, the count of zero, the write of the pruned
    ledger and the closing line; the clock is read twice and nothing is
    launched. *)
Theorem X19_gh_failure_is_logged (E : env) (f : file) (message : string) :
  paused (config_of E) = false →
  gh_search_prs E (excludeDraft (config_of E)) = inl message →
  run E f =
  {| NOTIFIED_FILE := Content (pruned E f); reads := 2; spawned := 0;
     trace :=
       [ Log ("[" +:+ toISOString (clock E 0) +:+ "] Started");
         LogError ("GitHub API failed: " +:+ message);
         Log "Fetched: 0 PRs";
         WriteNotified (pruned E f);
         Log "No review requests" ] |}.
Proof.
  intros Hp Hgh.
  assert (fetched E = []) as Hf.
  { unfold fetched, fetchPRs, bind, ask. by rewrite Hgh. }
  rewrite run_empty by done. unfold preamble, fetch_events. by rewrite Hgh, Hf.
Qed.

End Extras.

(** * The sample world, run *)

Import Sample.

(** The retention test of [index.test.js]: an entry older than the retention
    is gone from the file after a dry run, a recent one is still there. *)
Example cleanup_removes_old :
  let s := run (world no_config true []) (Content old_ledger) in
  persisted s !! "acme/old#1" = None ∧
  persisted s !! "acme/api#7" = old_ledger !! "acme/api#7".
Proof. by vm_compute. Qed.

(** A real run on three review requests, one of them already in the ledger. *)
Example run_three :
  let s := run (world no_config false three) (Content old_ledger) in
  outcomes (trace s) =
    [ ("https://github.com/acme/web/pull/12", true);
      ("https://github.com/acme/api/pull/9", true) ] ∧
  notifications (trace s) = [("PR Opener", "2件の新しいPRがあります")] ∧
  persisted s !! "acme/web#12" =
    Some {[ "at" := "2026-11-03T09:00:02.000Z"; "title" := "Add footer" ]} ∧
  persisted s !! "acme/api#9" =
    Some {[ "at" := "2026-11-03T09:00:03.000Z"; "title" := "Bump deps" ]} ∧
  persisted s !! "acme/api#7" = old_ledger !! "acme/api#7" ∧
  persisted s !! "acme/old#1" = None.
Proof. by vm_compute. Qed.

(** A corrupt ledger file reads as the empty ledger. *)
Example corrupt_file_is_empty :
  persisted (run (world no_config true []) Corrupt) = ∅.
Proof. by vm_compute. Qed.

(** The statistics of the sample history, read on 3 November 2026 at
    09:00:04 UTC: the entry of 20 October is older than seven days. *)
Example stats_of_history :
  handleStats history 1793696404000 =
  [ "📊 PR Opener Stats"; "──────────────────────────────";
    "Total PRs notified: 5"; "Last 7 days: 4"; "";
    "Top repositories:";
    "  1. acme/api (2)"; "  2. acme/web (2)"; "  3. acme/old (1)" ].
Proof. by vm_compute. Qed.

(** The statistics test of [index.test.js] on an empty history. *)
Example stats_of_nothing :
  handleStats [] 1793696404000 =
  [ "📊 PR Opener Stats"; "──────────────────────────────";
    "Total PRs notified: 0"; "Last 7 days: 0"; ""; "No PR history yet." ].
Proof. by vm_compute. Qed.

(** The command for a message with a single quote in it. *)
Example command_with_quote :
  osascript_command "PR Opener" "it's here" =
  "osascript -e 'display notification " +:+ String dquote "it'\''s here"
  +:+ String dquote " with title " +:+ String dquote "PR Opener"
  +:+ String dquote " sound name " +:+ String dquote "Glass"
  +:+ String dquote "'".
Proof. by vm_compute. Qed.

(** With the default limit of 5, the three fetched pull requests of which
    one is in the ledger give two selected ones. *)
Lemma C4_witness :
  let E := world no_config false three in
  let f := Content old_ledger in
  0 ≤ maxTabsToOpen (config_of E) ∧
  selected E f = take 5 (filter (λ p, pruned E f !! key p = None) (fetched E)).
Proof.
  intros E f.
  assert (0 ≤ maxTabsToOpen (config_of E)) as Hm by (vm_compute; discriminate).
  split; [exact Hm|]. exact (proj1 (C4_diff_filters_then_truncates E f Hm)).
Defined.

(** With a browser that cannot be launched, nothing is recorded. *)
Lemma C5_witness :
  let E := broken_browser three in
  let p := pr "acme/api" 7 "Fix login" in
  paused (config_of E) = false ∧
  selected E Missing !! 0%nat = Some p ∧
  persisted (run E Missing) !! key p = None.
Proof.
  intros E p.
  assert (selected E Missing !! 0%nat = Some p) as Hsel by (vm_compute; reflexivity).
  split; [reflexivity|]. split; [exact Hsel|].
  destruct (C5_entry_iff_open_succeeded E Missing 0 p eq_refl Hsel)
    as (_ & _ & _ & _ & Hfail).
  apply Hfail. intros j q _ _. reflexivity.
Defined.

(** A limit of -1 on three new pull requests launches the browser twice. *)
Lemma C7_witness :
  let E := world (with_max (-1)) false three in
  maxTabsToOpen (config_of E) ≤ 0 ∧
  length (launches (trace (run E Missing))) = 2%nat.
Proof.
  intros E.
  assert (maxTabsToOpen (config_of E) ≤ 0) as Hm by (vm_compute; discriminate).
  split; [exact Hm|].
  destruct (C7_nonpositive_limit E Missing Hm) as (_ & _ & Hneg).
  destruct (Hneg eq_refl) as (_ & Hrun).
  destruct (Hrun eq_refl eq_refl) as (_ & Hlen & _).
  exact (eq_trans Hlen eq_refl).
Defined.

(** A dry run on the sample ledger launches nothing and persists what the
    real run persists. *)
Lemma C8_witness :
  let E := world no_config true three in
  let f := Content old_ledger in
  DRY_RUN E = true ∧ paused (config_of E) = false ∧
  launches (trace (run E f)) = [] ∧
  persisted (run E f) = persisted (run (browser_always_opens E) f).
Proof.
  intros E f. split; [reflexivity|]. split; [reflexivity|].
  destruct (C8_dry_run_records_without_launching E f eq_refl eq_refl)
    as (Hl & _ & _ & _ & Hsame).
  split; [exact Hl | exact Hsame].
Defined.

(** When [gh] fails, the pruned sample ledger is written all the same. *)
Lemma C9_witness :
  let f := Content old_ledger in
  paused (config_of gh_down) = false ∧
  writes (trace (run gh_down f)) = [pruned gh_down f].
Proof.
  intros f. split; [reflexivity|].
  destruct (C9_empty_fetch_persists_pruned gh_down f eq_refl) as (_ & _ & Hw & _).
  - right. eexists. reflexivity.
  - exact Hw.
Defined.

(** The same pull request listed twice is selected twice. *)
Lemma C10_witness :
  let E := world no_config false twice in
  let p := pr "acme/api" 7 "Fix login" in
  let q := pr "acme/api" 7 "Fix login, again" in
  key p = key q ∧
  ∃ i' j', (i' < j')%nat ∧
           selected E Missing !! i' = Some p ∧ selected E Missing !! j' = Some q.
Proof.
  intros E p q.
  assert (key p = key q) as Hk by (vm_compute; reflexivity).
  split; [exact Hk|].
  destruct (C10_duplicates_are_both_opened E Missing 0 1 p q)
    as (i' & j' & Hlt & _ & Hj' & Hrest).
  - lia.
  - vm_compute; reflexivity.
  - vm_compute; reflexivity.
  - exact Hk.
  - vm_compute; reflexivity.
  - exists i', j'. split; [exact Hlt|].
    apply lookup_lt_Some in Hj'.
    assert (Z.of_nat j' < maxTabsToOpen (config_of E)) as Hmax.
    { change (maxTabsToOpen (config_of E)) with 5.
      assert (j' < 2)%nat as Hlen by exact Hj'. lia. }
    destruct (Hrest Hmax) as (Hsi & Hsj & _). split; [exact Hsi | exact Hsj].
Defined.

(** Every launch fails, so no tab was opened, and the notification is sent
    all the same: being notified is not equivalent to a tab having opened. *)
Lemma C6_counterexample :
  let E := broken_browser three in
  let r := run E Missing in
  ¬ (notifications (trace r) ≠ [] ↔
     opened (trace r) ≠ [] ∧ enableNotification (config_of E) = true).
Proof.
  intros E r [Hsent _].
  assert (notifications (trace r) ≠ []) as Hn by (vm_compute; discriminate).
  destruct (Hsent Hn) as [Hopened _]. apply Hopened. vm_compute. reflexivity.
Qed.

(** With a limit of -1 and three new pull requests two tabs are opened: a
    limit below zero does not mean that no tab is opened. *)
Lemma C7_counterexample :
  let E := world (with_max (-1)) false three in
  ¬ (maxTabsToOpen (config_of E) ≤ 0 → opened (trace (run E Missing)) = []).
Proof.
  intros E Hclaim.
  assert (maxTabsToOpen (config_of E) ≤ 0) as Hm by (vm_compute; discriminate).
  specialize (Hclaim Hm). vm_compute in Hclaim. discriminate.
Qed.

(** * The further properties on the sample world *)

(** A prune at the first reading of the clock, then one at the second. *)
Lemma X1_witness :
  let E := world no_config false three in
  let s1 := boot Missing in
  let s2 := {| NOTIFIED_FILE := Missing; reads := 1; spawned := 0; trace := [] |} in
  (cleanupOldNotified (cleanupOldNotified old_ledger 7 E s1).1 7 E s2).1 =
  (cleanupOldNotified old_ledger 7 E s2).1.
Proof.
  intros E s1 s2. apply (X1_prune_then_prune_later old_ledger 7 7 E s1 s2).
  vm_compute. discriminate.
Defined.

(** Three days of retention keep no more than seven. *)
Lemma X2_witness :
  let E := world no_config false three in
  (cleanupOldNotified old_ledger 3 E (boot Missing)).1 ⊆
  (cleanupOldNotified old_ledger 7 E (boot Missing)).1.
Proof.
  intros E.
  exact (proj1 (X2_prune_monotone old_ledger 3 7 E (boot Missing) ltac:(lia))).
Defined.

(** With a retention of zero the entry of three days ago is gone. *)
Lemma X3_witness :
  let E := world (with_retention 0) false three in
  pruned E (Content old_ledger) !! "acme/api#7" = None.
Proof.
  intros E.
  refine (proj1 (X3_no_retention_forgets E (Content old_ledger) "acme/api#7"
                   {[ "at" := "2026-10-31T09:00:00.000Z"; "title" := "Fix login" ]}
                   1793437200000 _ _ _ _)).
  - vm_compute. discriminate.
  - vm_compute. reflexivity.
  - vm_compute. reflexivity.
  - vm_compute. discriminate.
Defined.

(** The entry whose [at] is "yesterday" is dropped, its [notifiedAt] of three
    days ago notwithstanding. *)
Lemma X4_witness :
  let E := world no_config false three in
  (cleanupOldNotified odd_ledger 7 E (boot Missing)).1 !! "acme/api#7" = None.
Proof.
  intros E.
  assert (odd_ledger !! "acme/api#7" = Some odd_entry) as Hk by (vm_compute; reflexivity).
  destruct (X4_at_takes_precedence odd_ledger 7 E (boot Missing) "acme/api#7"
              odd_entry Hk) as [Hbad _].
  apply (Hbad "yesterday").
  - vm_compute. reflexivity.
  - discriminate.
  - vm_compute. reflexivity.
Defined.

(** A paused run on the sample ledger. *)
Lemma X5_witness :
  let E := world paused_config false three in
  launches (trace (run E (Content old_ledger))) = [] ∧
  NOTIFIED_FILE (run E (Content old_ledger)) = Content old_ledger.
Proof.
  intros E.
  destruct (X5_paused_run_does_nothing E (Content old_ledger) eq_refl)
    as (Hrun & Hl & _).
  split; [exact Hl | exact (f_equal NOTIFIED_FILE Hrun)].
Defined.

Lemma X6_witness :
  let E := world no_config false three in
  let f := Content old_ledger in
  ∃ before line,
    trace (run E f) = before ++ [WriteNotified (persisted (run E f)); Log line] ∧
    writes before = [].
Proof.
  intros E f.
  destruct (X6_one_write_at_the_end E f eq_refl) as (before & line & Htr & Hw & _).
  exists before, line. split; [exact Htr | exact Hw].
Defined.

(** The entry of three days ago is still there after the run. *)
Lemma X7_witness :
  let E := world no_config false three in
  let f := Content old_ledger in
  persisted (run E f) !! "acme/api#7" =
  Some {[ "at" := "2026-10-31T09:00:00.000Z"; "title" := "Fix login" ]}.
Proof.
  intros E f.
  apply (proj1 (X7_run_keeps_unexpired_entries E f eq_refl)).
  vm_compute. reflexivity.
Defined.

(** What the first run opened is not selected by a second run a moment
    later. *)
Lemma X8_witness :
  let E := world no_config false three in
  let f := Content old_ledger in
  let p := pr "acme/web" 12 "Add footer" in
  p ∉ selected E (NOTIFIED_FILE (run E f)).
Proof.
  intros E f p.
  refine (proj2 (X8_next_run_does_not_reopen E E f 0 p eq_refl _ eq_refl _) p eq_refl).
  - vm_compute. reflexivity.
  - intros n Hn. change (length (selected E f)) with 2%nat in Hn.
    assert (n = 2 ∨ n = 3)%nat as [-> | ->] by lia.
    + split; [vm_compute; discriminate|].
      exists 1793696402000. split; vm_compute; reflexivity.
    + split; [vm_compute; discriminate|].
      exists 1793696403000. split; vm_compute; reflexivity.
Defined.

(** With a limit of two, the first run takes the first two of three pull
    requests and the second run the third. *)
Lemma X9_witness :
  let E := world (with_max 2) false three in
  selected E Missing = take 2 three ∧
  selected E (NOTIFIED_FILE (run E Missing)) = drop 2 three.
Proof.
  intros E.
  refine (X9_next_run_takes_the_next E E Missing eq_refl _ eq_refl eq_refl _ _ _ _).
  - vm_compute. discriminate.
  - refine (@bool_decide_unpack _ (NoDup_dec _) _). vm_compute. exact I.
  - intros q _. apply lookup_empty.
  - intros n _. reflexivity.
  - intros n Hn. change (Z.to_nat (maxTabsToOpen (config_of E))) with 2%nat in Hn.
    assert (n = 2 ∨ n = 3)%nat as [-> | ->] by lia.
    + split; [vm_compute; discriminate|].
      exists 1793696402000. split; vm_compute; reflexivity.
    + split; [vm_compute; discriminate|].
      exists 1793696403000. split; vm_compute; reflexivity.
Defined.

(** [pause] on a missing [config.json]. *)
Lemma X11_witness :
  paused (with_defaults (handleCommand "pause" None).1) = true ∧
  (handleCommand "pause" None).1 =
    saveConfig {| maxTabsToOpen := 5; paused := true; excludeDraft := true;
                  notifiedRetentionDays := 7; enableNotification := true |}.
Proof.
  destruct (X11_pause_resume_set_the_flag "pause" None (or_introl eq_refl))
    as (Hp & _ & _ & _ & _ & Hw & _).
  split; [exact Hp | exact Hw].
Defined.

Lemma X12_witness :
  let E := world no_config false three in
  let f := Content old_ledger in
  launches (trace (run (with_config (handleCommand "pause" (CONFIG_FILE E)).1 E) f)) = [] ∧
  run (with_config (handleCommand "resume" (handleCommand "pause" (CONFIG_FILE E)).1).1 E) f
  = run E f.
Proof.
  intros E f.
  destruct (X12_pause_stops_resume_restores E f eq_refl) as (Hstop & _ & Hback).
  split; [exact (f_equal (λ s, launches (trace s)) Hstop) | exact Hback].
Defined.

(** In the sample history [acme/api] and [acme/web] both count two, and
    [acme/api] is mentioned first. *)
Lemma X15_witness :
  ∃ i', ((λ e, before_hash e.1) <$> history) !! i' = Some "acme/api" ∧
        ∀ j', (j' ≤ i')%nat → ((λ e, before_hash e.1) <$> history) !! j' ≠ Some "acme/web".
Proof.
  refine (X15_ties_keep_first_mention history 0 1 ("acme/api", 2%nat) ("acme/web", 2%nat)
            _ _ _ eq_refl).
  - lia.
  - vm_compute. reflexivity.
  - vm_compute. reflexivity.
Defined.

Lemma X16_witness :
  let E := world no_config false three in
  let s := {| NOTIFIED_FILE := Missing; reads := 4; spawned := 0; trace := [] |} in
  length (recent_entries history (clock E (reads s))) =
  size (cleanupOldNotified (list_to_map history) 7 E s).1.
Proof.
  intros E s. refine (proj1 (X16_last_seven_days_is_a_prune history E s _)).
  refine (@bool_decide_unpack _ (NoDup_dec _) _). vm_compute. exact I.
Defined.

(** The run when [gh] is not installed. *)
Lemma X19_witness :
  launches (trace (run gh_down (Content old_ledger))) = [] ∧
  NOTIFIED_FILE (run gh_down (Content old_ledger)) =
    Content (pruned gh_down (Content old_ledger)).
Proof.
  pose proof (X19_gh_failure_is_logged gh_down (Content old_ledger)
                "gh: command not found" eq_refl eq_refl) as Hrun.
  split; [exact (f_equal (λ s, launches (trace s)) Hrun)
         | exact (f_equal NOTIFIED_FILE Hrun)].
Defined.
